(** * CACanvas: a double-buffered grid canvas (js/CACanvas.js)

    The class draws cells, agent markers and links into an off-screen
    canvas and copies that canvas onto a visible one.  Every statement of
    the class is a call into the browser's 2D canvas interface, so the
    development has two layers:

    - a model of the part of the canvas interface the class uses (element
      creation, the [width]/[height] attributes, path building, [fill],
      [stroke], [drawImage], [getElementById], [getContext]), following the
      HTML Standard;
    - the class itself, transcribed statement by statement on top of it.

    Numbers are integers ([Z]): grid coordinates, [size] and [cSize] are
    integers in the class's documentation, and on integers of ordinary
    magnitude JavaScript's arithmetic is exact; [Math.floor(c / 2)] is
    [c / 2] in [Z]. *)

From Stdlib Require Import ZArith QArith Lqa Lia List String.
From stdpp Require Import base gmap strings.

Local Open Scope Z_scope.

(** ** Colours and pixels *)

Record Color := RGBA { red : Z; green : Z; blue : Z; alpha : Z }.

(** The value of the CSS colour ["#000000"]. *)
Definition black : Color := RGBA 0 0 0 255.

Definition is_opaque (c : Color) : bool := alpha c =? 255.

(** The pieces of a path.  The class only ever builds rectangles, full
    circles ([arc(x, y, r, 0, 2 * Math.PI)]) and straight segments. *)
Inductive prim :=
| PRect (x y w h : Z)
| PArc (x y radius : Z)
| PSeg (x0 y0 x1 y1 : Z).

Inductive geometry :=
| FillOf (p : list prim)
| StrokeOf (p : list prim).

(** A pixel is the stack of paint that determines its colour, topmost
    first.  [Cover c] is paint [c] over the whole pixel.  [Edge c g] is
    paint [c] over the part of the pixel that the geometry [g] covers
    (anti-aliasing); that part is fixed by [g] and the pixel's position and
    may be empty.  The empty stack is transparent black, the initial
    content of a canvas. *)
Inductive layer :=
| Cover (c : Color)
| Edge (c : Color) (g : geometry).

Definition pixel := list layer.
Definition bitmap := Z -> Z -> pixel.

Definition clear : bitmap := fun _ _ => [].

Definition covers_all (l : layer) : bool :=
  match l with
  | Cover c => is_opaque c
  | Edge _ _ => false
  end.

(** Source-over compositing, the default of the 2D context: opaque paint
    over the whole pixel replaces what was there, anything else is laid
    on top of it. *)
Definition composite (src dst : pixel) : pixel :=
  if existsb covers_all src then src else src ++ dst.

Definition over (l : layer) (under : pixel) : pixel := composite [l] under.

(** ** Rasterisation footprints

    Pixel [(px, py)] is the unit square [[px, px+1] x [py, py+1]].
    Path coordinates produced by the class are integers, the line width is
    never assigned and keeps its initial value 1, so all comparisons are
    done on integers (distances doubled where a half occurs). *)

Inductive coverage := Outside | Partial | Full.

Definition join (a b : coverage) : coverage :=
  match a, b with
  | Full, _ | _, Full => Full
  | Partial, _ | _, Partial => Partial
  | Outside, Outside => Outside
  end.

(** Distance from coordinate [c] to the nearest and to the farthest point
    of the interval [[p, p+1]]. *)
Definition gap (c p : Z) : Z :=
  if c <? p then p - c else if p + 1 <? c then c - (p + 1) else 0.

Definition reach (c p : Z) : Z := Z.max (Z.abs (p - c)) (Z.abs (p + 1 - c)).

Definition between (lo hi p : Z) : bool := (lo <=? p) && (p <? hi).

Definition fill_prim (s : prim) (px py : Z) : coverage :=
  match s with
  | PRect x y w h =>
      if between (Z.min x (x + w)) (Z.max x (x + w)) px
         && between (Z.min y (y + h)) (Z.max y (y + h)) py
      then Full else Outside
  | PArc cx cy r =>
      if reach cx px * reach cx px + reach cy py * reach cy py <=? r * r then Full
      else if gap cx px * gap cx px + gap cy py * gap cy py <? r * r then Partial
      else Outside
  | PSeg _ _ _ _ => Outside
  end.

(** Segments have no area of their own; the region enclosed by the
    segments of a path lies in the bounding box of their end points, and
    the pixels of that box are reported as possibly covered. *)
Definition seg_xs (s : prim) : list Z :=
  match s with PSeg x0 _ x1 _ => [x0; x1] | _ => [] end.
Definition seg_ys (s : prim) : list Z :=
  match s with PSeg _ y0 _ y1 => [y0; y1] | _ => [] end.

Definition within (l : list Z) (p : Z) : bool :=
  existsb (fun v => v <? p + 1) l && existsb (fun v => p <? v) l.

Definition fill_coverage (p : list prim) (px py : Z) : coverage :=
  fold_right join
    (if within (flat_map seg_xs p) px && within (flat_map seg_ys p) py
     then Partial else Outside)
    (map (fun s => fill_prim s px py) p).

(** A stroke of width 1 stays within distance 1/2 of the outline.  An arc
    of radius 0 is a single point: it has no outline and its stroke paints
    nothing. *)
Definition near (lo hi p : Z) : bool := (lo - 1 <=? p) && (p <=? hi).

Definition stroke_prim (s : prim) (px py : Z) : bool :=
  match s with
  | PRect x y w h =>
      near (Z.min x (x + w)) (Z.max x (x + w)) px
      && near (Z.min y (y + h)) (Z.max y (y + h)) py
  | PArc cx cy r =>
      (0 <? r)
      && (4 * (gap cx px * gap cx px + gap cy py * gap cy py) <? (2 * r + 1) * (2 * r + 1))
      && ((2 * r - 1) * (2 * r - 1) <? 4 * (reach cx px * reach cx px + reach cy py * reach cy py))
  | PSeg x0 y0 x1 y1 =>
      near (Z.min x0 x1) (Z.max x0 x1) px && near (Z.min y0 y1) (Z.max y0 y1) py
  end.

Definition stroke_coverage (p : list prim) (px py : Z) : bool :=
  existsb (fun s => stroke_prim s px py) p.

Definition fill_layers (p : list prim) (c : Color) (px py : Z) : pixel :=
  match fill_coverage p px py with
  | Full => [Cover c]
  | Partial => [Edge c (FillOf p)]
  | Outside => []
  end.

Definition stroke_layers (p : list prim) (c : Color) (px py : Z) : pixel :=
  if stroke_coverage p px py then [Edge c (StrokeOf p)] else [].

(** ** Canvas elements *)

Inductive ContextMode := NoContext | Mode2D | ModeOther.

Record Canvas := {
  width : Z;
  height : Z;
  pixels : bitmap;
  mode : ContextMode
}.

Definition in_bounds (cv : Canvas) (px py : Z) : bool :=
  between 0 (width cv) px && between 0 (height cv) py.

(** Painting is clipped to the bitmap. *)
Definition paint (f : Z -> Z -> pixel) (cv : Canvas) : Canvas :=
  {| width := width cv;
     height := height cv;
     pixels := fun px py =>
       if in_bounds cv px py then composite (f px py) (pixels cv px py)
       else pixels cv px py;
     mode := mode cv |}.

(** [document.createElement("canvas")]: 300 x 150, transparent, no
    context yet. *)
Definition createElement_canvas : Canvas :=
  {| width := 300; height := 150; pixels := clear; mode := NoContext |}.

(** [width] and [height] are [unsigned long] attributes that reflect a
    content attribute: the assigned number is reduced modulo 2^32, and a
    value above 2147483647 is replaced by the attribute's default (300 for
    [width], 150 for [height]).  Assigning either attribute clears the
    bitmap. *)
Definition to_uint32 (v : Z) : Z := v mod 4294967296.

Definition reflect_unsigned (default v : Z) : Z :=
  if to_uint32 v <=? 2147483647 then to_uint32 v else default.

Definition set_width (v : Z) (cv : Canvas) : Canvas :=
  {| width := reflect_unsigned 300 v; height := height cv;
     pixels := clear; mode := mode cv |}.

Definition set_height (v : Z) (cv : Canvas) : Canvas :=
  {| width := width cv; height := reflect_unsigned 150 v;
     pixels := clear; mode := mode cv |}.

(** ** The 2D context

    Only the state the class assigns is kept.  Everything else keeps its
    initial value: line width 1, butt caps, global alpha 1, source-over
    compositing, identity transform, no clip, no shadow. *)

Record Context2D := {
  canvas : Canvas;
  fillStyle : Color;
  strokeStyle : Color;
  path : list prim;
  pen : option (Z * Z)
}.

Inductive exn := IndexSizeError | InvalidStateError | TypeError.

Inductive result (A : Type) :=
| Ok (a : A)
| Error (e : exn).
Arguments Ok {A} a.
Arguments Error {A} e.

(** The part of a 2D context's drawing state that [drawImage] obeys.  A
    canvas of the page keeps its context, and with it this state, from one
    [getContext] call to the next; page code may have set any of it.  The
    class never assigns these attributes on its own buffer's context, which
    only the instance holds. *)
Record DrawState := {
  globalAlpha : Q;
  globalCompositeOperation : string;
  transform : Q * Q * Q * Q * Q * Q;
  clip : option (list prim);
  shadowColor : Color;
  filter : string;
  imageSmoothingEnabled : bool
}.

(** The state of a newly created context. *)
Definition initial_state : DrawState :=
  {| globalAlpha := 1%Q;
     globalCompositeOperation := "source-over";
     transform := (1%Q, 0%Q, 0%Q, 1%Q, 0%Q, 0%Q);
     clip := None;
     shadowColor := RGBA 0 0 0 0;
     filter := "none";
     imageSmoothingEnabled := true |}.

(** A state under which [drawImage] paints the image as it is: full alpha,
    source-over, identity transform, no clip, no shadow, no filter. *)
Definition plain_state (st : DrawState) : bool :=
  Qeq_bool (globalAlpha st) 1
  && String.eqb (globalCompositeOperation st) "source-over"
  && (let '(a, b, c, d, e, f) := transform st in
      Qeq_bool a 1 && Qeq_bool b 0 && Qeq_bool c 0
      && Qeq_bool d 1 && Qeq_bool e 0 && Qeq_bool f 0)
  && (match clip st with None => true | Some _ => false end)
  && (alpha (shadowColor st) =? 0)
  && String.eqb (filter st) "none".

(** When the source interval [[s0, s0 + slen)] is stretched onto the
    destination interval [[d0, d0 + dlen)], destination column [p] covers
    the source columns from [floor ((p - d0) * slen / dlen)] to
    [ceil ((p + 1 - d0) * slen / dlen) - 1]; a resampling filter reads
    those and at most [reach] columns of the stretched grid on each side.
    The two bounds are inclusive. *)
Definition source_span (reach s0 slen d0 dlen p : Z) : Z * Z :=
  (s0 + (p - d0) * slen / dlen - reach * (1 + slen / dlen),
   s0 + ((p + 1 - d0) * slen + dlen - 1) / dlen - 1 + reach * (1 + slen / dlen)).

Definition in_span (span : Z * Z) (q : Z) : bool :=
  (fst span <=? q) && (q <=? snd span).

(** What the class needs from the browser and cannot compute itself.

    - The CSS colour parser.
    - The resampling filter of [drawImage] in a plain state, which gives
      the paint a destination pixel receives from the source rectangle
      ([sample], told whether smoothing is enabled).  A source rectangle
      drawn at its own size is not filtered: each destination pixel
      receives the corresponding source pixel.  At any other size the
      source rectangle is stretched over the whole destination rectangle:
      a destination pixel receives paint [v] when all the source pixels
      its filter reads (those of [source_span], inside the source
      rectangle) are [v].
    - What [drawImage] leaves at a pixel under any other drawing state
      ([render]). *)
Class Backend := {
  parse_color : string -> option Color;
  parse_black : parse_color "#000000" = Some black;
  sample : bool -> Canvas -> Z * Z * Z * Z -> Z * Z * Z * Z -> Z -> Z -> pixel;
  sample_same_size : forall smooth src sx sy dx dy w h px py,
    0 <= sx -> 0 <= sy -> sx + w <= width src -> sy + h <= height src ->
    dx <= px < dx + w -> dy <= py < dy + h ->
    sample smooth src (sx, sy, w, h) (dx, dy, w, h) px py
    = pixels src (px - dx + sx) (py - dy + sy);
  filter_reach : Z;
  sample_stretch : forall smooth src sx sy sw sh dx dy dw dh px py v,
    0 < sw -> 0 < sh -> 0 < dw -> 0 < dh ->
    0 <= sx -> 0 <= sy -> sx + sw <= width src -> sy + sh <= height src ->
    dx <= px < dx + dw -> dy <= py < dy + dh ->
    (forall qx qy,
       sx <= qx < sx + sw -> sy <= qy < sy + sh ->
       in_span (source_span filter_reach sx sw dx dw px) qx = true ->
       in_span (source_span filter_reach sy sh dy dh py) qy = true ->
       pixels src qx qy = v) ->
    sample smooth src (sx, sy, sw, sh) (dx, dy, dw, dh) px py = v;
  render : DrawState -> Canvas -> Z * Z * Z * Z -> Z * Z * Z * Z -> bitmap -> Z -> Z -> pixel
}.

Section Canvas2D.
Context `{Backend}.

(** The 2D context created for a canvas, in its initial state. *)
Definition context2d (cv : Canvas) : Context2D :=
  {| canvas := {| width := width cv; height := height cv;
                  pixels := pixels cv; mode := Mode2D |};
     fillStyle := black; strokeStyle := black; path := []; pen := None |}.

(** [canvas.getContext("2d")] on a canvas of the page whose context, if it
    has one, is in drawing state [st]: [null] when the canvas is bound to
    another kind of context; a new context in the initial state when it
    has none yet; otherwise the context it already has, with its state. *)
Definition getContext2d (cv : Canvas) (st : DrawState) : option (Canvas * DrawState) :=
  match mode cv with
  | ModeOther => None
  | NoContext => Some (canvas (context2d cv), initial_state)
  | Mode2D => Some (cv, st)
  end.

(** The context a page canvas offers is one in which [drawImage] paints
    the image as it is. *)
Definition plain_context (cv : Canvas) (st : DrawState) : bool :=
  match getContext2d cv st with
  | Some (_, st') => plain_state st'
  | None => false
  end.

Definition with_canvas (cv : Canvas) (c : Context2D) : Context2D :=
  {| canvas := cv; fillStyle := fillStyle c; strokeStyle := strokeStyle c;
     path := path c; pen := pen c |}.

Definition with_path (p : list prim) (q : option (Z * Z)) (c : Context2D) : Context2D :=
  {| canvas := canvas c; fillStyle := fillStyle c; strokeStyle := strokeStyle c;
     path := p; pen := q |}.

Definition beginPath (c : Context2D) : Context2D := with_path [] None c.

(** [rect] adds a closed rectangle and leaves the pen at its corner. *)
Definition rect (x y w h : Z) (c : Context2D) : Context2D :=
  with_path (path c ++ [PRect x y w h]) (Some (x, y)) c.

Definition moveTo (x y : Z) (c : Context2D) : Context2D :=
  with_path (path c) (Some (x, y)) c.

(** [lineTo] on a path without a current point only sets the point. *)
Definition lineTo (x y : Z) (c : Context2D) : Context2D :=
  match pen c with
  | None => with_path (path c) (Some (x, y)) c
  | Some (x0, y0) => with_path (path c ++ [PSeg x0 y0 x y]) (Some (x, y)) c
  end.

(** [arc(x, y, radius, 0, 2 * Math.PI)]: a negative radius raises
    IndexSizeError; a current point is first joined to the start of the
    arc by a straight line. *)
Definition arc (x y radius : Z) (c : Context2D) : result Context2D :=
  if radius <? 0 then Error IndexSizeError
  else
    let join_line :=
      match pen c with
      | None => []
      | Some (x0, y0) => [PSeg x0 y0 (x + radius) y]
      end in
    Ok (with_path (path c ++ join_line ++ [PArc x y radius]) (Some (x + radius, y)) c).

(** Assigning a string that is not a CSS colour is ignored. *)
Definition set_fillStyle (s : string) (c : Context2D) : Context2D :=
  match parse_color s with
  | Some v => {| canvas := canvas c; fillStyle := v; strokeStyle := strokeStyle c;
                 path := path c; pen := pen c |}
  | None => c
  end.

Definition set_strokeStyle (s : string) (c : Context2D) : Context2D :=
  match parse_color s with
  | Some v => {| canvas := canvas c; fillStyle := fillStyle c; strokeStyle := v;
                 path := path c; pen := pen c |}
  | None => c
  end.

Definition fill (c : Context2D) : Context2D :=
  with_canvas (paint (fill_layers (path c) (fillStyle c)) (canvas c)) c.

Definition stroke (c : Context2D) : Context2D :=
  with_canvas (paint (stroke_layers (path c) (strokeStyle c)) (canvas c)) c.

(** [drawImage(image, sx, sy, sw, sh, dx, dy, dw, dh)] with a canvas as
    image, on the canvas of the receiving context, whose drawing state is
    [st]: InvalidStateError when the image has no pixels, nothing when the
    source rectangle is empty; otherwise, in a plain state, the
    destination rectangle receives the resampled source, composited on
    what is there, and in any other state each pixel of the target is what
    the backend renders under that state.  The target keeps its size. *)
Definition drawImage (st : DrawState) (image : Canvas) (sx sy sw sh dx dy dw dh : Z)
    (target : Canvas) : result Canvas :=
  if (width image =? 0) || (height image =? 0) then Error InvalidStateError
  else if (sw =? 0) || (sh =? 0) then Ok target
  else if plain_state st then
    Ok (paint (fun px py =>
                 if between (Z.min dx (dx + dw)) (Z.max dx (dx + dw)) px
                    && between (Z.min dy (dy + dh)) (Z.max dy (dy + dh)) py
                 then sample (imageSmoothingEnabled st) image
                        (sx, sy, sw, sh) (dx, dy, dw, dh) px py
                 else [])
              target)
  else
    Ok {| width := width target;
          height := height target;
          pixels := fun px py =>
            if in_bounds target px py
            then render st image (sx, sy, sw, sh) (dx, dy, dw, dh) (pixels target) px py
            else pixels target px py;
          mode := mode target |}.

(** ** The page and the instance *)

(** An element of the page: a canvas, with the drawing state of its 2D
    context (which matters once it has one), or anything else. *)
Inductive Element :=
| CanvasElement (cv : Canvas) (st : DrawState)
| OtherElement.

(** class CACanvas: [this.buffer] and [this.ctx.canvas] are the same
    object, kept once, inside the context. *)
Record CACanvas := {
  size : Z;
  cSize : Z;
  ctx : Context2D
}.

Definition buffer (this : CACanvas) : Canvas := canvas (ctx this).

(** The state a method call runs in: the elements of the page by id, and
    the instance the method is called on.  The buffer is created detached
    and is never inserted in the page, so no id resolves to it. *)
Record World := {
  document : gmap string Element;
  self : CACanvas
}.

Inductive outcome (A : Type) :=
| Return (a : A)
| Throw (e : exn).
#[global] Arguments Return {A} a.
#[global] Arguments Throw {A} e.

Definition M (A : Type) : Type := World -> outcome A * World.

#[export] Instance M_ret : MRet M := fun A a w => (Return a, w).

#[export] Instance M_bind : MBind M := fun A B f m w =>
  match m w with
  | (Return a, w') => f a w'
  | (Throw e, w') => (Throw e, w')
  end.

Definition this_cSize : M Z := fun w => (Return (cSize (self w)), w).
Definition this_buffer : M Canvas := fun w => (Return (buffer (self w)), w).

Definition set_ctx (c : Context2D) (w : World) : World :=
  {| document := document w;
     self := {| size := size (self w); cSize := cSize (self w); ctx := c |} |}.

(** A call [this.ctx.f(...)] that cannot fail, and one that can. *)
Definition call (f : Context2D -> Context2D) : M unit :=
  fun w => (Return tt, set_ctx (f (ctx (self w))) w).

Definition try (f : Context2D -> result Context2D) : M unit :=
  fun w =>
    match f (ctx (self w)) with
    | Ok c => (Return tt, set_ctx c w)
    | Error e => (Throw e, w)
    end.

(** constructor(size, cSize = 20) *)
Definition constructor (size cSize : Z) : outcome CACanvas :=
  let buffer := createElement_canvas in
  let buffer := set_width (size * cSize) buffer in
  let buffer := set_height (size * cSize) buffer in
  Return {| size := size; cSize := cSize; ctx := context2d buffer |}.

Definition constructor_default (size : Z) : outcome CACanvas := constructor size 20.

(** draw(x, y, cellColor, circle = false, circleColor = "#000000") *)
Definition draw (x y : Z) (cellColor : string) (circle : bool)
    (circleColor : string) : M Z :=
  cSize ← this_cSize;
  call beginPath;;
  call (rect (x * cSize) (y * cSize) cSize cSize);;
  call (set_fillStyle cellColor);;
  call fill;;
  (if circle then
     let offset := cSize / 2 in
     call beginPath;;
     try (arc (x * cSize + offset) (y * cSize + offset) (offset - 1));;
     call (set_fillStyle circleColor);;
     call fill;;
     call (set_strokeStyle "#000000");;
     call stroke
   else mret tt);;
  mret cSize.

Definition draw_default (x y : Z) (cellColor : string) : M Z :=
  draw x y cellColor false "#000000".

(** drawLine(x1, y1, x2, y2) *)
Definition drawLine (x1 y1 x2 y2 : Z) : M unit :=
  cSize ← this_cSize;
  let offset := cSize / 2 in
  call beginPath;;
  call (set_strokeStyle "#000000");;
  call (moveTo (x1 * cSize + offset) (y1 * cSize + offset));;
  call (lineTo (x2 * cSize + offset) (y2 * cSize + offset));;
  call stroke.

(** [document.getElementById(id)]: a reference to the element (its id), or
    [null]. *)
Definition getElementById (id : string) : M (option string) :=
  fun w =>
    (Return (match document w !! id with Some _ => Some id | None => None end), w).

(** [el.getContext("2d")]: TypeError on [null] and on an element that is
    not a canvas; otherwise the canvas's context (named by the canvas's
    id), or [null]. *)
Definition getContext (el : option string) : M (option string) :=
  fun w =>
    match el with
    | None => (Throw TypeError, w)
    | Some id =>
        match document w !! id with
        | Some (CanvasElement cv st) =>
            match getContext2d cv st with
            | Some (cv', st') =>
                (Return (Some id),
                 {| document := <[id := CanvasElement cv' st']> (document w);
                    self := self w |})
            | None => (Return None, w)
            end
        | _ => (Throw TypeError, w)
        end
    end.

(** The canvas behind a context reference; TypeError on [null]. *)
Definition ctx_canvas (vctx : option string) : M Canvas :=
  fun w =>
    match vctx with
    | None => (Throw TypeError, w)
    | Some id =>
        match document w !! id with
        | Some (CanvasElement cv _) => (Return cv, w)
        | _ => (Throw TypeError, w)
        end
    end.

Definition ctx_drawImage (vctx : option string) (image : Canvas)
    (sx sy sw sh dx dy dw dh : Z) : M unit :=
  fun w =>
    match vctx with
    | None => (Throw TypeError, w)
    | Some id =>
        match document w !! id with
        | Some (CanvasElement target st) =>
            match drawImage st image sx sy sw sh dx dy dw dh target with
            | Ok cv =>
                (Return tt,
                 {| document := <[id := CanvasElement cv st]> (document w);
                    self := self w |})
            | Error e => (Throw e, w)
            end
        | _ => (Throw TypeError, w)
        end
    end.

(** update(canvasID) *)
Definition update (canvasID : string) : M Z :=
  visible_canvas ← getElementById canvasID;
  vctx ← getContext visible_canvas;
  vcanvas ← ctx_canvas vctx;
  buffer ← this_buffer;
  ctx_drawImage vctx buffer
    0 0 (width buffer) (height buffer)
    0 0 (width vcanvas) (height vcanvas);;
  vcanvas ← ctx_canvas vctx;
  mret (width vcanvas).

(** An identifier resolves to a drawable surface when the page has a canvas
    with that id from which a 2D context can be obtained. *)
Definition drawable (doc : gmap string Element) (id : string) : bool :=
  match doc !! id with
  | Some (CanvasElement cv st) =>
      match getContext2d cv st with Some _ => true | None => false end
  | _ => false
  end.

(** The calls a page makes on an instance after creating it.  A caller
    that catches an exception carries on with the state the call left. *)
Inductive invocation :=
| Draw (x y : Z) (cellColor : string) (circle : bool) (circleColor : string)
| DrawLine (x1 y1 x2 y2 : Z)
| Update (canvasID : string).

Definition invoke (k : invocation) (w : World) : World :=
  match k with
  | Draw x y cellColor circle circleColor => snd (draw x y cellColor circle circleColor w)
  | DrawLine x1 y1 x2 y2 => snd (drawLine x1 y1 x2 y2 w)
  | Update canvasID => snd (update canvasID w)
  end.

Definition invoke_all (ks : list invocation) (w : World) : World :=
  fold_left (fun w k => invoke k w) ks w.

End Canvas2D.

(** The line width of a context, never assigned by the class. *)
Definition lineWidth : Q := 1%Q.

(** ** A small backend to run the model on

    Four hexadecimal colours and nearest-neighbour resampling. *)

Definition demo_parse (s : string) : option Color :=
  if String.eqb s "#000000" then Some black
  else if String.eqb s "#ff0000" then Some (RGBA 255 0 0 255)
  else if String.eqb s "#00ff00" then Some (RGBA 0 255 0 255)
  else if String.eqb s "#0000ff" then Some (RGBA 0 0 255 255)
  else None.

Definition demo_sample (smooth : bool) (src : Canvas) (s d : Z * Z * Z * Z)
    (px py : Z) : pixel :=
  match s, d with
  | (sx, sy, sw, sh), (dx, dy, dw, dh) =>
      pixels src (sx + (px - dx) * sw / dw) (sy + (py - dy) * sh / dh)
  end.

(** Under a state that is not plain the demo backend leaves the target as
    it is. *)
Definition demo_render (st : DrawState) (image : Canvas) (s d : Z * Z * Z * Z)
    (old : bitmap) (px py : Z) : pixel := old px py.

#[export] Instance demo_backend : Backend := {|
  parse_color := demo_parse;
  parse_black := eq_refl;
  sample := demo_sample;
  sample_same_size :=
    ltac:(intros; unfold demo_sample; rewrite !Z.div_mul by lia; f_equal; lia);
  filter_reach := 0;
  sample_stretch :=
    ltac:(intros smooth src sx sy sw sh dx dy dw dh px py v
                 Hsw Hsh Hdw Hdh Hsx Hsy Hw Hh Hpx Hpy Hall;
          unfold demo_sample; apply Hall;
          [ pose proof (Z.div_pos ((px - dx) * sw) dw ltac:(nia) Hdw);
            pose proof (Z.div_lt_upper_bound ((px - dx) * sw) dw sw Hdw ltac:(nia)); lia
          | pose proof (Z.div_pos ((py - dy) * sh) dh ltac:(nia) Hdh);
            pose proof (Z.div_lt_upper_bound ((py - dy) * sh) dh sh Hdh ltac:(nia)); lia
          | unfold in_span, source_span; simpl fst; simpl snd;
            apply andb_true_iff; split; apply Z.leb_le;
            [ lia
            | pose proof (Z.div_le_mono ((px - dx) * sw) ((px + 1 - dx) * sw + dw - 1 - dw)
                            dw Hdw ltac:(nia));
              replace ((px + 1 - dx) * sw + dw - 1 - dw)
                with ((px + 1 - dx) * sw + dw - 1 + (-1) * dw) in * by lia;
              rewrite Z.div_add in * by lia; lia ]
          | unfold in_span, source_span; simpl fst; simpl snd;
            apply andb_true_iff; split; apply Z.leb_le;
            [ lia
            | pose proof (Z.div_le_mono ((py - dy) * sh) ((py + 1 - dy) * sh + dh - 1 - dh)
                            dh Hdh ltac:(nia));
              replace ((py + 1 - dy) * sh + dh - 1 - dh)
                with ((py + 1 - dy) * sh + dh - 1 + (-1) * dh) in * by lia;
              rewrite Z.div_add in * by lia; lia ] ]);
  render := demo_render
|}.

Definition red_paint : Color := RGBA 255 0 0 255.

(** [new CACanvas(10, 20)] and [new CACanvas(10, 1)]. *)
Definition grid_10_20 : CACanvas :=
  {| size := 10; cSize := 20;
     ctx := context2d (set_height 200 (set_width 200 createElement_canvas)) |}.

Definition grid_10_1 : CACanvas :=
  {| size := 10; cSize := 1;
     ctx := context2d (set_height 10 (set_width 10 createElement_canvas)) |}.

Definition grid_1_1 : CACanvas :=
  {| size := 1; cSize := 1;
     ctx := context2d (set_height 1 (set_width 1 createElement_canvas)) |}.

(** A page with one visible canvas, id ["view"], 200 x 200 and blank; a
    page with a 1 x 1 canvas already painted red; a page whose ["view"] is
    not a canvas. *)
Definition blank_view : Canvas :=
  {| width := 200; height := 200; pixels := clear; mode := NoContext |}.


(** A 100 x 100 canvas that shows red, and a drawing state with a global
    alpha of one half. *)
Definition small_red_view : Canvas :=
  {| width := 100; height := 100; pixels := fun _ _ => [Cover red_paint];
     mode := Mode2D |}.

Definition half_alpha : DrawState :=
  {| globalAlpha := (1 # 2)%Q;
     globalCompositeOperation := "source-over";
     transform := (1%Q, 0%Q, 0%Q, 1%Q, 0%Q, 0%Q);
     clip := None;
     shadowColor := RGBA 0 0 0 0;
     filter := "none";
     imageSmoothingEnabled := true |}.

Definition page_with (e : Element) : gmap string Element := {[ "view" := e ]}.

Definition world (doc : gmap string Element) (this : CACanvas) : World :=
  {| document := doc; self := this |}.

(** [new CACanvas(2, 3)] and [new CACanvas(0, 20)]; the four calls that
    redraw the 2 x 2 grid; a 6 x 6 canvas that shows red. *)
Definition grid_2_3 : CACanvas :=
  {| size := 2; cSize := 3;
     ctx := context2d (set_height 6 (set_width 6 createElement_canvas)) |}.

Definition grid_0_20 : CACanvas :=
  {| size := 0; cSize := 20;
     ctx := context2d (set_height 0 (set_width 0 createElement_canvas)) |}.

Definition redraw_2x2 : list invocation :=
  [Draw 0 0 "#ff0000" false "#000000"; Draw 1 0 "#00ff00" true "#0000ff";
   Draw 0 1 "#0000ff" false "#000000"; Draw 1 1 "#000000" false "#000000"].


(** * Properties *)

Section Properties.
Context `{Backend}.

(** ** Compositing and footprints *)

Lemma composite_nil_l (dst : pixel) : composite [] dst = dst.
Proof. reflexivity. Qed.


Lemma over_opaque (c : Color) (under : pixel) :
  is_opaque c = true -> over (Cover c) under = [Cover c].
Proof. intros Hc. unfold over, composite. simpl. rewrite Hc. reflexivity. Qed.

(** A square of non-negative side covers exactly the pixels between its
    corners, each of them entirely. *)
Lemma fill_layers_square (X Y c : Z) (col : Color) (px py : Z) :
  0 <= c ->
  fill_layers [PRect X Y c c] col px py
  = if between X (X + c) px && between Y (Y + c) py then [Cover col] else [].
Proof.
  intros Hc. unfold fill_layers, fill_coverage. simpl.
  rewrite !Z.min_l, !Z.max_r by lia.
  destruct (between X (X + c) px && between Y (Y + c) py); reflexivity.
Qed.

Lemma gap_lower (c p d : Z) : 0 <= d -> p + 1 <= c - d \/ c + d <= p -> d <= gap c p.
Proof. intros Hd Hp. unfold gap. destruct (Z.ltb_spec c p), (Z.ltb_spec (p + 1) c); lia. Qed.

Lemma gap_nonneg (c p : Z) : 0 <= gap c p.
Proof. unfold gap. destruct (Z.ltb_spec c p), (Z.ltb_spec (p + 1) c); lia. Qed.

(** The floor of half the cell size. *)
Lemma half_bounds (c : Z) : 2 * (c / 2) <= c < 2 * (c / 2) + 2.
Proof. pose proof (Z.div_mod c 2 ltac:(lia)). pose proof (Z.mod_pos_bound c 2 ltac:(lia)). lia. Qed.

Lemma radius_negative (c : Z) : (c / 2 - 1 <? 0) = (c <? 2).
Proof.
  pose proof (half_bounds c).
  destruct (Z.ltb_spec (c / 2 - 1) 0), (Z.ltb_spec c 2); try reflexivity; lia.
Qed.

(** A marker circle drawn in a cell of side at least 2 touches no pixel
    outside the cell, neither with its disc nor with its outline. *)
Lemma marker_inside_cell (c x y px py : Z) :
  2 <= c ->
  between (x * c) (x * c + c) px && between (y * c) (y * c + c) py = false ->
  fill_coverage [PArc (x * c + c / 2) (y * c + c / 2) (c / 2 - 1)] px py = Outside
  /\ stroke_coverage [PArc (x * c + c / 2) (y * c + c / 2) (c / 2 - 1)] px py = false.
Proof.
  intros Hc Hout. pose proof (half_bounds c) as Hh.
  set (o := c / 2) in *.
  assert (Hg : o <= gap (x * c + o) px \/ o <= gap (y * c + o) py).
  { apply andb_false_iff in Hout. unfold between in Hout.
    destruct Hout as [Hx | Hy]; [left | right];
      apply andb_false_iff in Hx || apply andb_false_iff in Hy.
    - apply gap_lower; [lia|].
      destruct Hx as [Hx | Hx]; [apply Z.leb_gt in Hx | apply Z.ltb_ge in Hx]; lia.
    - apply gap_lower; [lia|].
      destruct Hy as [Hy | Hy]; [apply Z.leb_gt in Hy | apply Z.ltb_ge in Hy]; lia. }
  pose proof (gap_nonneg (x * c + o) px) as Hgx.
  pose proof (gap_nonneg (y * c + o) py) as Hgy.
  set (gx := gap (x * c + o) px) in *. set (gy := gap (y * c + o) py) in *.
  assert (Hsq : (2 * o - 1) * (2 * o - 1) < 4 * (gx * gx + gy * gy)) by nia.
  split.
  - unfold fill_coverage. simpl. fold gx gy.
    destruct (Z.leb_spec (reach (x * c + o) px * reach (x * c + o) px
                          + reach (y * c + o) py * reach (y * c + o) py)
                         ((o - 1) * (o - 1))) as [Hr | Hr].
    + exfalso.
      assert (gx <= reach (x * c + o) px /\ gy <= reach (y * c + o) py) as [? ?].
      { unfold gx, gy, gap, reach.
        destruct (Z.ltb_spec (x * c + o) px), (Z.ltb_spec (px + 1) (x * c + o)),
                 (Z.ltb_spec (y * c + o) py), (Z.ltb_spec (py + 1) (y * c + o)); lia. }
      assert (0 <= reach (x * c + o) px /\ 0 <= reach (y * c + o) py) as [? ?] by
        (unfold reach; lia).
      nia.
    + destruct (Z.ltb_spec (gx * gx + gy * gy) ((o - 1) * (o - 1))); [nia | reflexivity].
  - unfold stroke_coverage. simpl. fold gx gy.
    replace (2 * (o - 1) + 1) with (2 * o - 1) by lia.
    destruct (Z.ltb_spec (4 * (gx * gx + gy * gy)) ((2 * o - 1) * (2 * o - 1))); [lia|].
    rewrite andb_false_r. reflexivity.
Qed.

(** ** What one call leaves behind *)

Lemma set_strokeStyle_black (c : Context2D) :
  set_strokeStyle "#000000" c
  = {| canvas := canvas c; fillStyle := fillStyle c; strokeStyle := black;
       path := path c; pen := pen c |}.
Proof. unfold set_strokeStyle. rewrite parse_black. reflexivity. Qed.

Lemma draw_outcome (w : World) x y s circle s' :
  fst (draw x y s circle s' w)
  = if circle && (cSize (self w) <? 2) then Throw IndexSizeError
    else Return (cSize (self w)).
Proof.
  rewrite <- radius_negative.
  unfold draw, mbind, M_bind, mret, M_ret, call, try, this_cSize, arc.
  destruct circle; simpl; [|reflexivity].
  destruct (cSize (self w) / 2 - 1 <? 0); reflexivity.
Qed.

Lemma draw_pixels (w : World) x y s circle s' px py :
  pixels (buffer (self (snd (draw x y s circle s' w)))) px py
  = let c := cSize (self w) in
    let cv := buffer (self w) in
    let fs1 := match parse_color s with Some v => v | None => fillStyle (ctx (self w)) end in
    let filled :=
      if in_bounds cv px py
      then composite (fill_layers [PRect (x * c) (y * c) c c] fs1 px py) (pixels cv px py)
      else pixels cv px py in
    if circle && (2 <=? c) then
      let fs2 := match parse_color s' with Some v => v | None => fs1 end in
      let m := [PArc (x * c + c / 2) (y * c + c / 2) (c / 2 - 1)] in
      if in_bounds cv px py
      then composite (stroke_layers m black px py)
             (composite (fill_layers m fs2 px py) filled)
      else filled
    else filled.
Proof.
  cbv zeta. rewrite (Z.leb_antisym (cSize (self w)) 2), <- radius_negative.
  unfold draw, mbind, M_bind, mret, M_ret, call, try, this_cSize, arc.
  destruct circle; simpl.
  - destruct (cSize (self w) / 2 - 1 <? 0); simpl.
    + unfold set_fillStyle. destruct (parse_color s); reflexivity.
    + rewrite set_strokeStyle_black.
      unfold set_fillStyle. destruct (parse_color s), (parse_color s');
        unfold buffer; simpl; unfold in_bounds; simpl;
        destruct (between 0 (width (canvas (ctx (self w)))) px
                  && between 0 (height (canvas (ctx (self w)))) py); reflexivity.
  - unfold set_fillStyle. destruct (parse_color s); reflexivity.
Qed.

(** A [draw] call touches neither the page nor the instance's fields nor
    the size of the buffer. *)
Lemma draw_frame (w : World) x y s circle s' :
  let w' := snd (draw x y s circle s' w) in
  document w' = document w
  /\ size (self w') = size (self w)
  /\ cSize (self w') = cSize (self w)
  /\ width (buffer (self w')) = width (buffer (self w))
  /\ height (buffer (self w')) = height (buffer (self w)).
Proof.
  unfold draw, mbind, M_bind, mret, M_ret, call, try, this_cSize, arc.
  destruct circle; simpl.
  - destruct (cSize (self w) / 2 - 1 <? 0); simpl.
    + unfold set_fillStyle. destruct (parse_color s); repeat split; reflexivity.
    + rewrite set_strokeStyle_black.
      unfold set_fillStyle. destruct (parse_color s), (parse_color s');
        repeat split; reflexivity.
  - unfold set_fillStyle. destruct (parse_color s); repeat split; reflexivity.
Qed.

Lemma result_split {A : Type} (r : outcome A * World) (o : outcome A) :
  fst r = o -> r = (o, snd r).
Proof. destruct r. simpl. congruence. Qed.

(** Every point within half a line width of the marker circle lies strictly
    inside the cell's square, for a cell of side at least 2. *)
Lemma outline_inside_cell (c x y : Z) (qx qy : Q) :
  2 <= c ->
  ((qx - inject_Z (x * c + c / 2)) * (qx - inject_Z (x * c + c / 2))
   + (qy - inject_Z (y * c + c / 2)) * (qy - inject_Z (y * c + c / 2))
   <= (inject_Z (c / 2 - 1) + lineWidth / 2) * (inject_Z (c / 2 - 1) + lineWidth / 2))%Q ->
  (inject_Z (x * c) < qx /\ qx < inject_Z (x * c + c)
   /\ inject_Z (y * c) < qy /\ qy < inject_Z (y * c + c))%Q.
Proof.
  intros Hc. pose proof (half_bounds c) as Hh.
  set (o := c / 2) in *.
  assert (H1 : (1 <= inject_Z o)%Q) by (change 1%Q with (inject_Z 1); rewrite <- Zle_Qle; lia).
  assert (H2 : (2 * inject_Z o <= inject_Z c)%Q).
  { change 2%Q with (inject_Z 2). rewrite <- inject_Z_mult, <- Zle_Qle. lia. }
  unfold Z.sub. rewrite !inject_Z_plus. unfold lineWidth.
  generalize dependent (inject_Z o). generalize (inject_Z c).
  generalize (inject_Z (x * c)). generalize (inject_Z (y * c)).
  intros Y X C O HO1 HO2 Hd.
  set (a := (qx - (X + O))%Q) in *. set (b := (qy - (Y + O))%Q) in *.
  assert (Hy : (0 <= b * b)%Q) by (clear; nra).
  assert (Hx : (0 <= a * a)%Q) by (clear; nra).
  change (1 / 2)%Q with (1 # 2)%Q in Hd.
  change (inject_Z (- (1))) with (- (1))%Q in Hd.
  set (r := (O - (1 # 2))%Q).
  assert (Ha : (a * a <= r * r)%Q) by (unfold r; lra).
  assert (Hb : (b * b <= r * r)%Q) by (unfold r; lra).
  assert (Hr : (0 < r)%Q) by (unfold r; lra).
  assert (Haa : (- r <= a /\ a <= r)%Q) by (clear - Ha Hr; split; nra).
  assert (Hbb : (- r <= b /\ b <= r)%Q) by (clear - Hb Hr; split; nra).
  unfold a, b, r in *. repeat split; lra.
Qed.

(** After a call with a marker in a cell of side at least 2, the current
    path is the marker circle and the styles are the marker's. *)
Lemma draw_marker_context (w : World) x y s s' :
  2 <= cSize (self w) ->
  let c := cSize (self w) in
  let w' := snd (draw x y s true s' w) in
  path (ctx (self w')) = [PArc (x * c + c / 2) (y * c + c / 2) (c / 2 - 1)]
  /\ strokeStyle (ctx (self w')) = black
  /\ forall v, parse_color s' = Some v -> fillStyle (ctx (self w')) = v.
Proof.
  intros Hc. cbv zeta.
  assert (Hr : (cSize (self w) / 2 - 1 <? 0) = false).
  { rewrite radius_negative. apply Z.ltb_ge. exact Hc. }
  unfold draw, mbind, M_bind, mret, M_ret, call, try, this_cSize, arc.
  simpl. rewrite Hr. simpl. rewrite set_strokeStyle_black. simpl.
  unfold set_fillStyle.
  destruct (parse_color s') as [v'|], (parse_color s); simpl;
    (split; [reflexivity|]); (split; [reflexivity|]); intros v Hv;
    try discriminate; injection Hv as <-; reflexivity.
Qed.

Lemma drawLine_frame (w : World) x1 y1 x2 y2 :
  let w' := snd (drawLine x1 y1 x2 y2 w) in
  document w' = document w
  /\ size (self w') = size (self w)
  /\ cSize (self w') = cSize (self w)
  /\ width (buffer (self w')) = width (buffer (self w))
  /\ height (buffer (self w')) = height (buffer (self w)).
Proof.
  unfold drawLine, mbind, M_bind, mret, M_ret, call, this_cSize. simpl.
  rewrite set_strokeStyle_black. repeat split; reflexivity.
Qed.

(** [update] never writes to the instance, and in the page only to the
    element it was given. *)
Lemma update_frame (w : World) (id : string) :
  self (snd (update id w)) = self w
  /\ forall id', id' <> id ->
       document (snd (update id w)) !! id' = document w !! id'.
Proof.
  unfold update, mbind, M_bind, mret, M_ret, getElementById, getContext,
    ctx_canvas, ctx_drawImage, this_buffer.
  destruct (document w !! id) as [[cv st|]|] eqn:E; simpl; rewrite ?E; simpl;
    try (split; [reflexivity | intros; reflexivity]).
  destruct (getContext2d cv st) as [[cv0 st0]|]; simpl;
    [| split; [reflexivity | intros; reflexivity]].
  rewrite lookup_insert_eq. simpl. unfold drawImage.
  destruct ((width (buffer (self w)) =? 0) || (height (buffer (self w)) =? 0)); simpl;
    rewrite lookup_insert_eq; simpl; [| destruct (plain_state st0); simpl];
    rewrite ?lookup_insert_eq; simpl;
    (split; [reflexivity|]);
    intros id' Hne; rewrite !lookup_insert_ne by congruence; reflexivity.
Qed.

(** The context a drawable canvas of the page offers is bound to a canvas
    with the same size and pixels. *)
Lemma getContext2d_canvas (cv cv0 : Canvas) (st st0 : DrawState) :
  getContext2d cv st = Some (cv0, st0) ->
  width cv0 = width cv /\ height cv0 = height cv /\ pixels cv0 = pixels cv
  /\ mode cv0 = Mode2D
  /\ getContext2d cv0 st0 = Some (cv0, st0).
Proof.
  unfold getContext2d. destruct (mode cv) eqn:Em; intros E; inversion E; subst.
  - simpl. repeat split; reflexivity.
  - rewrite Em. repeat split; reflexivity.
Qed.

Lemma plain_context_inv (cv : Canvas) (st : DrawState) :
  plain_context cv st = true ->
  exists cv0 st0,
    getContext2d cv st = Some (cv0, st0) /\ plain_state st0 = true.
Proof.
  unfold plain_context. destruct (getContext2d cv st) as [[cv0 st0]|]; [|discriminate].
  intros Hp. exists cv0, st0. split; [reflexivity | exact Hp].
Qed.

(** A successful [update] on a context in a plain state, written out. *)
Lemma update_visible (w : World) (id : string) (cv cv0 : Canvas) (st st0 : DrawState) :
  document w !! id = Some (CanvasElement cv st) ->
  getContext2d cv st = Some (cv0, st0) ->
  plain_state st0 = true ->
  width (buffer (self w)) <> 0 ->
  height (buffer (self w)) <> 0 ->
  let buf := buffer (self w) in
  update id w
  = (Return (width cv0),
     {| document :=
          <[id := CanvasElement
                    (paint (fun px py =>
                              if between (Z.min 0 (0 + width cv0)) (Z.max 0 (0 + width cv0)) px
                                 && between (Z.min 0 (0 + height cv0))
                                      (Z.max 0 (0 + height cv0)) py
                              then sample (imageSmoothingEnabled st0) buf
                                     (0, 0, width buf, height buf)
                                     (0, 0, width cv0, height cv0) px py
                              else [])
                       cv0)
                    st0]> (document w);
        self := self w |}).
Proof.
  intros E Hg Hp Hw Hh. cbv zeta.
  unfold update, mbind, M_bind, mret, M_ret, getElementById, getContext,
    ctx_canvas, ctx_drawImage, this_buffer.
  rewrite E. simpl. rewrite E. simpl.
  rewrite Hg. simpl. rewrite lookup_insert_eq. simpl. rewrite lookup_insert_eq.
  unfold drawImage.
  apply Z.eqb_neq in Hw, Hh. rewrite Hw, Hh, Hp. simpl.
  rewrite lookup_insert_eq. simpl. rewrite insert_insert_eq. reflexivity.
Qed.


(** What that [drawImage] leaves at a pixel of the visible canvas. *)
Lemma blit_pixel (smooth : bool) (buf cv0 : Canvas) (px py : Z) :
  pixels
    (paint (fun px py =>
              if between (Z.min 0 (0 + width cv0)) (Z.max 0 (0 + width cv0)) px
                 && between (Z.min 0 (0 + height cv0)) (Z.max 0 (0 + height cv0)) py
              then sample smooth buf (0, 0, width buf, height buf)
                     (0, 0, width cv0, height cv0) px py
              else [])
       cv0) px py
  = if in_bounds cv0 px py
    then composite
           (sample smooth buf (0, 0, width buf, height buf)
              (0, 0, width cv0, height cv0) px py)
           (pixels cv0 px py)
    else pixels cv0 px py.
Proof.
  unfold paint. cbn [pixels].
  destruct (in_bounds cv0 px py) eqn:Hin; [|reflexivity].
  unfold in_bounds, between in Hin.
  apply andb_true_iff in Hin. destruct Hin as [Hx Hy].
  apply andb_true_iff in Hx, Hy. destruct Hx as [Hx0 Hx1], Hy as [Hy0 Hy1].
  apply Z.leb_le in Hx0, Hy0. apply Z.ltb_lt in Hx1, Hy1.
  rewrite !Z.min_l, !Z.max_r by lia. unfold between.
  repeat match goal with
         | |- context [?a <=? ?b] => destruct (Z.leb_spec a b); [|lia]
         | |- context [?a <? ?b] => destruct (Z.ltb_spec a b); [|lia]
         end.
  reflexivity.
Qed.

Lemma in_bounds_inv (cv : Canvas) (px py : Z) :
  in_bounds cv px py = true -> 0 <= px < width cv /\ 0 <= py < height cv.
Proof.
  unfold in_bounds, between. intros Hin.
  apply andb_true_iff in Hin. destruct Hin as [Hx Hy].
  apply andb_true_iff in Hx, Hy. destruct Hx as [Hx0 Hx1], Hy as [Hy0 Hy1].
  apply Z.leb_le in Hx0, Hy0. apply Z.ltb_lt in Hx1, Hy1. lia.
Qed.

Lemma invoke_dimensions (k : invocation) (w : World) :
  width (buffer (self (invoke k w))) = width (buffer (self w))
  /\ height (buffer (self (invoke k w))) = height (buffer (self w)).
Proof.
  destruct k as [x y s b s' | x1 y1 x2 y2 | id]; simpl.
  - destruct (draw_frame w x y s b s') as (_ & _ & _ & Hw & Hh). split; assumption.
  - destruct (drawLine_frame w x1 y1 x2 y2) as (_ & _ & _ & Hw & Hh). split; assumption.
  - destruct (update_frame w id) as [Hs _]. rewrite Hs. split; reflexivity.
Qed.

Lemma invoke_all_dimensions (ks : list invocation) (w : World) :
  width (buffer (self (invoke_all ks w))) = width (buffer (self w))
  /\ height (buffer (self (invoke_all ks w))) = height (buffer (self w)).
Proof.
  revert w. induction ks as [|k ks IH]; intros w; simpl.
  - split; reflexivity.
  - destruct (IH (invoke k w)) as [Hw Hh].
    destruct (invoke_dimensions k w) as [Hw' Hh'].
    split; congruence.
Qed.

Lemma reflect_in_range (default v : Z) :
  0 <= v <= 2147483647 -> reflect_unsigned default v = v.
Proof.
  intros Hv. unfold reflect_unsigned, to_uint32.
  rewrite Z.mod_small by lia.
  destruct (Z.leb_spec v 2147483647); [reflexivity | lia].
Qed.

(** ** The claims *)

(** C1 (amended).  In an instance with cell pixel size [c > 0], a call
    [draw(x, y, cellColor, circle, circleColor)] whose [cellColor] is a CSS
    colour paints the [c] by [c] pixel square with top-left corner
    [(x*c, y*c)] with [cellColor], clipped to the buffer, whatever [circle]
    is and also when the call raises: the buffer it leaves is the old one
    with that square filled, and, when a marker was drawn ([circle] true
    and [c >= 2]), the marker painted over it.  The call returns [c]
    whenever [circle] is false or [c >= 2]. *)
Theorem draw_fills_cell (w : World) (x y : Z) (cellColor : string)
    (circle : bool) (circleColor : string) (col : Color) :
  0 < cSize (self w) ->
  parse_color cellColor = Some col ->
  let c := cSize (self w) in
  let cv := buffer (self w) in
  let r := draw x y cellColor circle circleColor w in
  (circle = false \/ 2 <= c -> fst r = Return c)
  /\ forall px py,
       let filled :=
         if in_bounds cv px py
            && between (x * c) (x * c + c) px && between (y * c) (y * c + c) py
         then over (Cover col) (pixels cv px py)
         else pixels cv px py in
       let m := [PArc (x * c + c / 2) (y * c + c / 2) (c / 2 - 1)] in
       let mcol := match parse_color circleColor with Some v => v | None => col end in
       pixels (buffer (self (snd r))) px py
       = if circle && (2 <=? c) && in_bounds cv px py
         then composite (stroke_layers m black px py)
                (composite (fill_layers m mcol px py) filled)
         else filled.
Proof.
  intros Hc Hcol. cbv zeta. split.
  - intros Hm. rewrite draw_outcome.
    destruct Hm as [-> | Hm]; [reflexivity|].
    destruct (Z.ltb_spec (cSize (self w)) 2); [lia|].
    rewrite andb_false_r. reflexivity.
  - intros px py. rewrite draw_pixels. cbv zeta.
    rewrite Hcol, fill_layers_square by lia.
    destruct (circle && (2 <=? cSize (self w))); simpl.
    + destruct (in_bounds (buffer (self w)) px py); simpl; [|reflexivity].
      destruct (between _ _ px && between _ _ py); reflexivity.
    + destruct (in_bounds (buffer (self w)) px py); simpl; [|reflexivity].
      destruct (between _ _ px && between _ _ py); reflexivity.
Qed.

(** C9 (amended).  [drawLine] never raises an error.  [draw] raises an
    error in exactly one situation: [circle] is true and the cell pixel
    size is below 2, where the marker radius [floor(c/2) - 1] is negative
    and [arc] rejects it with IndexSizeError; in every other call it
    returns the cell pixel size. *)
Theorem drawing_calls_complete (w : World) (x y : Z) (cellColor : string)
    (circle : bool) (circleColor : string) (x1 y1 x2 y2 : Z) :
  fst (drawLine x1 y1 x2 y2 w) = Return tt
  /\ fst (draw x y cellColor circle circleColor w)
     = if circle && (cSize (self w) <? 2) then Throw IndexSizeError
       else Return (cSize (self w)).
Proof.
  split; [reflexivity | apply draw_outcome].
Qed.

(** C8.  Two consecutive [draw] calls at the same grid coordinates, the
    second with an opaque cell colour: over the cell's square the buffer
    shows nothing of the first call.  Every pixel of the square is exactly
    the second colour when the second call has no marker, and the second
    call's marker over exactly the second colour when it has one. *)
Theorem draw_overwrites_cell (w : World) (x y : Z)
    (color1 : string) (circle1 : bool) (circleColor1 : string)
    (color2 : string) (circle2 : bool) (circleColor2 : string)
    (col2 : Color) (px py : Z) :
  0 < cSize (self w) ->
  parse_color color2 = Some col2 ->
  is_opaque col2 = true ->
  in_bounds (buffer (self w)) px py = true ->
  between (x * cSize (self w)) (x * cSize (self w) + cSize (self w)) px = true ->
  between (y * cSize (self w)) (y * cSize (self w) + cSize (self w)) py = true ->
  let c := cSize (self w) in
  let w1 := snd (draw x y color1 circle1 circleColor1 w) in
  let w2 := snd (draw x y color2 circle2 circleColor2 w1) in
  let m := [PArc (x * c + c / 2) (y * c + c / 2) (c / 2 - 1)] in
  let mcol := match parse_color circleColor2 with Some v => v | None => col2 end in
  pixels (buffer (self w2)) px py
  = if circle2 && (2 <=? c)
    then composite (stroke_layers m black px py)
           (composite (fill_layers m mcol px py) [Cover col2])
    else [Cover col2].
Proof.
  intros Hc Hcol Hop Hin Hx Hy. cbv zeta.
  destruct (draw_frame w x y color1 circle1 circleColor1) as (_ & _ & Hcs & Hw & Hh).
  rewrite draw_pixels. cbv zeta. rewrite Hcs, Hcol.
  assert (Hin1 : in_bounds (buffer (self (snd (draw x y color1 circle1 circleColor1 w)))) px py
                 = true).
  { unfold in_bounds. rewrite Hw, Hh. exact Hin. }
  rewrite Hin1, fill_layers_square, Hx, Hy by lia. simpl.
  fold (over (Cover col2)
          (pixels (buffer (self (snd (draw x y color1 circle1 circleColor1 w)))) px py)).
  rewrite over_opaque by exact Hop.
  reflexivity.
Qed.

(** C2 (amended).  In an instance with cell pixel size [c >= 2], a call
    [draw(x, y, cellColor, true, circleColor)] with a CSS colour
    [circleColor] returns [c] and, on top of the filled square, paints the
    disc of radius [floor(c/2) - 1] centred at
    [(x*c + floor(c/2), y*c + floor(c/2))] with [circleColor] and then
    strokes its outline in opaque black.  The circle with its outline lies
    inside the cell's square: no pixel outside the square changes, and
    every point within half a line width of the circle is strictly inside
    the square. *)
Theorem draw_marker_circle (w : World) (x y : Z) (cellColor circleColor : string)
    (mcol : Color) :
  2 <= cSize (self w) ->
  parse_color circleColor = Some mcol ->
  let c := cSize (self w) in
  let offset := c / 2 in
  let m := [PArc (x * c + offset) (y * c + offset) (offset - 1)] in
  let cv := buffer (self w) in
  let filled := pixels (buffer (self (snd (draw x y cellColor false circleColor w)))) in
  exists w',
    draw x y cellColor true circleColor w = (Return c, w')
    /\ path (ctx (self w')) = m
    /\ fillStyle (ctx (self w')) = mcol
    /\ strokeStyle (ctx (self w')) = black
    /\ is_opaque black = true
    /\ (forall px py,
          pixels (buffer (self w')) px py
          = if in_bounds cv px py
            then composite (stroke_layers m black px py)
                   (composite (fill_layers m mcol px py) (filled px py))
            else filled px py)
    /\ (forall px py,
          between (x * c) (x * c + c) px && between (y * c) (y * c + c) py = false ->
          pixels (buffer (self w')) px py = pixels cv px py)
    /\ (forall qx qy : Q,
          ((qx - inject_Z (x * c + offset)) * (qx - inject_Z (x * c + offset))
           + (qy - inject_Z (y * c + offset)) * (qy - inject_Z (y * c + offset))
           <= (inject_Z (offset - 1) + lineWidth / 2)
              * (inject_Z (offset - 1) + lineWidth / 2))%Q ->
          (inject_Z (x * c) < qx /\ qx < inject_Z (x * c + c)
           /\ inject_Z (y * c) < qy /\ qy < inject_Z (y * c + c))%Q).
Proof.
  intros Hc Hcol. cbv zeta.
  exists (snd (draw x y cellColor true circleColor w)).
  destruct (draw_marker_context w x y cellColor circleColor Hc) as (Hp & Hs & Hf).
  assert (Hc2 : (2 <=? cSize (self w)) = true) by (apply Z.leb_le; exact Hc).
  split.
  { apply result_split. rewrite draw_outcome.
    destruct (Z.ltb_spec (cSize (self w)) 2); [lia | reflexivity]. }
  split; [exact Hp|]. split; [apply Hf; exact Hcol|]. split; [exact Hs|].
  split; [reflexivity|].
  split; [|split].
  - intros px py. rewrite !draw_pixels. cbv zeta. rewrite Hc2, Hcol. simpl.
    destruct (in_bounds (buffer (self w)) px py); reflexivity.
  - intros px py Hout. rewrite draw_pixels. cbv zeta. rewrite Hc2, Hcol. simpl.
    destruct (marker_inside_cell (cSize (self w)) x y px py Hc Hout) as [Hfc Hsc].
    unfold stroke_layers, fill_layers. rewrite Hfc, Hsc.
    rewrite !composite_nil_l.
    fold (fill_layers [PRect (x * cSize (self w)) (y * cSize (self w))
                         (cSize (self w)) (cSize (self w))]
            (match parse_color cellColor with
             | Some v => v
             | None => fillStyle (ctx (self w))
             end) px py).
    rewrite fill_layers_square, Hout by lia.
    destruct (in_bounds (buffer (self w)) px py); reflexivity.
  - intros qx qy. apply outline_inside_cell. exact Hc.
Qed.

(** C5.  [drawLine(x1, y1, x2, y2)] returns nothing and strokes, in opaque
    black, the straight segment from [(x1*c + floor(c/2), y1*c + floor(c/2))]
    to [(x2*c + floor(c/2), y2*c + floor(c/2))], the pixel centres of the
    two cells: the segment is the whole current path, and the buffer is the
    old one with that stroke on top. *)
Theorem drawLine_joins_centres (w : World) (x1 y1 x2 y2 : Z) :
  let c := cSize (self w) in
  let offset := c / 2 in
  let seg := [PSeg (x1 * c + offset) (y1 * c + offset) (x2 * c + offset) (y2 * c + offset)] in
  let cv := buffer (self w) in
  exists w',
    drawLine x1 y1 x2 y2 w = (Return tt, w')
    /\ document w' = document w
    /\ path (ctx (self w')) = seg
    /\ strokeStyle (ctx (self w')) = black
    /\ is_opaque black = true
    /\ forall px py,
         pixels (buffer (self w')) px py
         = if in_bounds cv px py
           then composite (stroke_layers seg black px py) (pixels cv px py)
           else pixels cv px py.
Proof.
  cbv zeta. exists (snd (drawLine x1 y1 x2 y2 w)).
  split; [apply result_split; reflexivity|].
  unfold drawLine, mbind, M_bind, mret, M_ret, call, this_cSize. simpl.
  rewrite set_strokeStyle_black. simpl.
  repeat split; reflexivity.
Qed.


(** C4 (amended).  For [d > 0] and [c > 0] with [d * c <= 2147483647],
    the constructor allocates a buffer of exactly [d * c] pixels on both
    axes, and no sequence of [draw], [drawLine] and [update] calls changes
    the buffer's width or height. *)
Theorem buffer_dimensions_fixed (d c : Z) (doc : gmap string Element)
    (ks : list invocation) :
  0 < d -> 0 < c -> d * c <= 2147483647 ->
  exists this,
    constructor d c = Return this
    /\ width (buffer this) = d * c
    /\ height (buffer this) = d * c
    /\ width (buffer (self (invoke_all ks {| document := doc; self := this |}))) = d * c
    /\ height (buffer (self (invoke_all ks {| document := doc; self := this |}))) = d * c.
Proof.
  intros Hd Hc Hmax. eexists. split; [reflexivity|].
  assert (Hr : forall default, reflect_unsigned default (d * c) = d * c).
  { intros default. apply reflect_in_range. nia. }
  assert (Hw : width (buffer {| size := d; cSize := c;
                 ctx := context2d (set_height (d * c) (set_width (d * c) createElement_canvas)) |})
               = d * c) by (simpl; apply Hr).
  assert (Hh : height (buffer {| size := d; cSize := c;
                 ctx := context2d (set_height (d * c) (set_width (d * c) createElement_canvas)) |})
               = d * c) by (simpl; apply Hr).
  split; [exact Hw|]. split; [exact Hh|].
  match goal with
  | |- context [invoke_all ks ?w0] => destruct (invoke_all_dimensions ks w0) as [Hw' Hh']
  end.
  split; [rewrite Hw' | rewrite Hh']; assumption.
Qed.


(** C7.  [update(id)] with an id that resolves to no drawable surface (no
    element, an element that is not a canvas, or a canvas that yields no 2D
    context) raises the TypeError of the failed lookup, which is the
    failure the specification names SurfaceNotFound, and leaves the page
    and the instance exactly as they were. *)
Theorem update_missing_surface (w : World) (id : string) :
  drawable (document w) id = false ->
  update id w = (Throw TypeError, w).
Proof.
  unfold drawable, update, mbind, M_bind, mret, M_ret, getElementById, getContext,
    ctx_canvas.
  destruct (document w !! id) as [[cv st|]|] eqn:E; simpl; rewrite ?E; simpl;
    try reflexivity.
  destruct (getContext2d cv st) as [[cv0 st0]|]; [discriminate | reflexivity].
Qed.

(** C10.  A successful [update] leaves the instance as it was: the fields
    [size] and [cSize], the buffer's width and height and every pixel of
    the buffer are unchanged.  The call writes only to the page element
    with the given id. *)
Theorem update_preserves_instance (w w' : World) (id : string) (v : Z) :
  update id w = (Return v, w') ->
  self w' = self w
  /\ size (self w') = size (self w)
  /\ cSize (self w') = cSize (self w)
  /\ width (buffer (self w')) = width (buffer (self w))
  /\ height (buffer (self w')) = height (buffer (self w))
  /\ (forall px py, pixels (buffer (self w')) px py = pixels (buffer (self w)) px py)
  /\ (forall id', id' <> id -> document w' !! id' = document w !! id').
Proof.
  intros Hu. destruct (update_frame w id) as [Hs Hd].
  rewrite Hu in Hs, Hd. simpl in Hs, Hd.
  rewrite Hs. repeat split; try reflexivity. exact Hd.
Qed.

End Properties.

(** * The model on concrete inputs *)

Example constructor_10_20 : constructor 10 20 = Return grid_10_20.
Proof. reflexivity. Qed.

Example constructor_10_1 : constructor 10 1 = Return grid_10_1.
Proof. reflexivity. Qed.

Example constructor_1_1 : constructor 1 1 = Return grid_1_1.
Proof. reflexivity. Qed.

Example constructor_default_size : constructor_default 10 = Return grid_10_20.
Proof. reflexivity. Qed.

(** [create(10, 20)] gives a 200 x 200 buffer; [draw(3, 4, "#ff0000")]
    fills the pixels [60..79] x [80..99]. *)
Example draw_3_4_red :
  let w' := snd (draw_default 3 4 "#ff0000" (world ∅ grid_10_20)) in
  width (buffer grid_10_20) = 200
  /\ pixels (buffer (self w')) 60 80 = [Cover red_paint]
  /\ pixels (buffer (self w')) 79 99 = [Cover red_paint]
  /\ pixels (buffer (self w')) 59 80 = []
  /\ pixels (buffer (self w')) 80 99 = []
  /\ pixels (buffer (self w')) 60 79 = []
  /\ pixels (buffer (self w')) 60 100 = [].
Proof. repeat split; reflexivity. Qed.

(** [drawLine(3, 4, 5, 5)] strokes from (70, 90) to (110, 110). *)
Example drawLine_3_4_5_5 :
  path (ctx (self (snd (drawLine 3 4 5 5 (world ∅ grid_10_20)))))
  = [PSeg 70 90 110 110].
Proof. reflexivity. Qed.

(** [draw(3, 4, "#00ff00", true, "#0000ff")] draws a blue circle of radius
    9 centred at (70, 90). *)
Example draw_3_4_marker :
  let w' := snd (draw 3 4 "#00ff00" true "#0000ff" (world ∅ grid_10_20)) in
  path (ctx (self w')) = [PArc 70 90 9]
  /\ pixels (buffer (self w')) 70 90 = [Cover (RGBA 0 0 255 255)]
  /\ pixels (buffer (self w')) 60 80 = [Cover (RGBA 0 255 0 255)].
Proof. repeat split; reflexivity. Qed.

Example update_blank_view :
  fst (update "view" (world (page_with (CanvasElement blank_view initial_state)) grid_10_20))
  = Return 200.
Proof. reflexivity. Qed.

(** Under a drawing state that is not plain, here a global alpha of one
    half, [update] still returns the canvas's width. *)
Example update_half_alpha :
  plain_state half_alpha = false
  /\ fst (update "view"
            (world (page_with (CanvasElement small_red_view half_alpha)) grid_10_20))
     = Return 100.
Proof. split; reflexivity. Qed.

(** A buffer whose size is a multiple of 2^32 is empty, and [update]
    refuses to draw from it. *)
Example update_empty_buffer :
  exists this,
    constructor 65536 65536 = Return this
    /\ width (buffer this) = 0
    /\ fst (update "view" (world (page_with (CanvasElement blank_view initial_state)) this))
       = Throw InvalidStateError.
Proof. eexists. repeat split; reflexivity. Qed.

(** * Witnesses and counterexamples *)

Lemma draw_fills_cell_witness :
  (fst (draw 3 4 "#ff0000" false "#000000" (world ∅ grid_10_20)) = Return 20
   /\ pixels (buffer (self (snd (draw 3 4 "#ff0000" false "#000000"
                                    (world ∅ grid_10_20))))) 60 80
      = [Cover red_paint]
   /\ pixels (buffer (self (snd (draw 3 4 "#ff0000" false "#000000"
                                    (world ∅ grid_10_20))))) 59 80
      = [])
  /\ pixels (buffer (self (snd (draw 0 0 "#ff0000" true "#000000"
                                  (world ∅ grid_10_1))))) 0 0
     = [Cover red_paint].
Proof.
  split.
  - destruct (draw_fills_cell (world ∅ grid_10_20) 3 4 "#ff0000" false "#000000" red_paint)
      as [R P]; [reflexivity | reflexivity |].
    split; [apply R; left; reflexivity|].
    split; rewrite P; reflexivity.
  - destruct (draw_fills_cell (world ∅ grid_10_1) 0 0 "#ff0000" true "#000000" red_paint)
      as [_ P]; [reflexivity | reflexivity |].
    rewrite P. reflexivity.
Defined.

(** C1 as stated fails: in an instance with cell pixel size 1, a call
    with a marker does not return the cell pixel size. *)
Lemma draw_marker_unit_cell_no_return :
  0 < cSize grid_10_1
  /\ ~ exists w',
        draw 0 0 "#ff0000" true "#000000" (world ∅ grid_10_1)
        = (Return (cSize grid_10_1), w').
Proof.
  split; [simpl; lia|].
  intros [w' E]. apply (f_equal fst) in E. rewrite draw_outcome in E.
  simpl in E. discriminate E.
Qed.

Lemma draw_marker_circle_witness :
  exists w',
    draw 3 4 "#00ff00" true "#0000ff" (world ∅ grid_10_20) = (Return 20, w')
    /\ path (ctx (self w')) = [PArc 70 90 9]
    /\ pixels (buffer (self w')) 70 90 = [Cover (RGBA 0 0 255 255)]
    /\ pixels (buffer (self w')) 80 90 = [].
Proof.
  destruct (draw_marker_circle (world ∅ grid_10_20) 3 4 "#00ff00" "#0000ff"
              (RGBA 0 0 255 255))
    as (w' & E & Hp & _ & _ & _ & P & Pout & _); [simpl; lia | reflexivity |].
  exists w'. split; [exact E|]. split; [exact Hp|].
  split; [rewrite P; reflexivity | rewrite Pout; reflexivity].
Defined.

(** C2 as stated fails: in an instance with cell pixel size 1 the call
    with a marker stops at [arc]: no circle enters the path and the cell
    shows the cell colour alone. *)
Lemma draw_marker_unit_cell_no_circle :
  let r := draw 0 0 "#ff0000" true "#0000ff" (world ∅ grid_10_1) in
  fst r = Throw IndexSizeError
  /\ path (ctx (self (snd r))) = []
  /\ pixels (buffer (self (snd r))) 0 0 = [Cover red_paint].
Proof. repeat split; reflexivity. Qed.



Lemma buffer_dimensions_fixed_witness :
  exists this,
    constructor 10 20 = Return this
    /\ width (buffer this) = 10 * 20
    /\ height (buffer this) = 10 * 20
    /\ width (buffer (self (invoke_all
                              [Draw 3 4 "#ff0000" true "#0000ff"; DrawLine 3 4 5 5;
                               Update "view"]
                              {| document := page_with (CanvasElement blank_view initial_state);
                                 self := this |}))) = 10 * 20
    /\ height (buffer (self (invoke_all
                               [Draw 3 4 "#ff0000" true "#0000ff"; DrawLine 3 4 5 5;
                                Update "view"]
                               {| document := page_with (CanvasElement blank_view initial_state);
                                  self := this |}))) = 10 * 20.
Proof. apply buffer_dimensions_fixed; lia. Defined.

(** C4 as stated fails: 65536 * 32768 = 2^31 is not a value the [width]
    attribute takes; the buffer falls back to 300 x 150. *)
Lemma constructor_large_grid_default_size :
  0 < 65536 /\ 0 < 32768
  /\ exists this,
       constructor 65536 32768 = Return this
       /\ width (buffer this) = 300
       /\ height (buffer this) = 150
       /\ width (buffer this) <> 65536 * 32768.
Proof.
  split; [lia|]. split; [lia|].
  eexists. split; [reflexivity|]. repeat split; simpl; try reflexivity. discriminate.
Qed.

Lemma drawLine_joins_centres_witness :
  exists w',
    drawLine 3 4 5 5 (world ∅ grid_10_20) = (Return tt, w')
    /\ path (ctx (self w')) = [PSeg 70 90 110 110]
    /\ pixels (buffer (self w')) 70 90
       = [Edge black (StrokeOf [PSeg 70 90 110 110])]
    /\ pixels (buffer (self w')) 111 110 = [].
Proof.
  destruct (drawLine_joins_centres (world ∅ grid_10_20) 3 4 5 5)
    as (w' & E & _ & Hp & _ & _ & P).
  exists w'. split; [exact E|]. split; [exact Hp|].
  split; rewrite P; reflexivity.
Defined.


Lemma update_missing_surface_witness :
  update "view" (world ∅ grid_10_20) = (Throw TypeError, world ∅ grid_10_20)
  /\ update "view" (world (page_with OtherElement) grid_10_20)
     = (Throw TypeError, world (page_with OtherElement) grid_10_20).
Proof.
  split; apply update_missing_surface; reflexivity.
Defined.

Lemma draw_overwrites_cell_witness :
  let w1 := snd (draw 3 4 "#ff0000" true "#0000ff" (world ∅ grid_10_20)) in
  let w2 := snd (draw 3 4 "#00ff00" false "#000000" w1) in
  pixels (buffer (self w1)) 70 90 = [Cover (RGBA 0 0 255 255)]
  /\ pixels (buffer (self w2)) 70 90 = [Cover (RGBA 0 255 0 255)].
Proof.
  split; [reflexivity|].
  apply (draw_overwrites_cell (world ∅ grid_10_20) 3 4
           "#ff0000" true "#0000ff" "#00ff00" false "#000000"
           (RGBA 0 255 0 255) 70 90);
    first [reflexivity | simpl; lia].
Defined.

Lemma drawing_calls_complete_witness :
  fst (drawLine 3 4 5 5 (world ∅ grid_10_1)) = Return tt
  /\ fst (draw 3 4 "#ff0000" true "#000000" (world ∅ grid_10_20)) = Return 20.
Proof.
  split.
  - apply (drawing_calls_complete (world ∅ grid_10_1) 0 0 "#ff0000" false "#000000" 3 4 5 5).
  - apply (drawing_calls_complete (world ∅ grid_10_20) 3 4 "#ff0000" true "#000000" 0 0 0 0).
Defined.

(** C9 as stated fails: with cell pixel size 1 and a marker the radius is
    -1 and the call raises IndexSizeError. *)
Lemma draw_marker_unit_cell_throws :
  constructor 10 1 = Return grid_10_1
  /\ fst (draw 0 0 "#ff0000" true "#000000" (world ∅ grid_10_1))
     = Throw IndexSizeError.
Proof. split; reflexivity. Qed.

Lemma update_preserves_instance_witness :
  let w := world (page_with (CanvasElement blank_view initial_state)) grid_10_20 in
  self (snd (update "view" w)) = grid_10_20.
Proof.
  cbv zeta.
  destruct (update_preserves_instance
              (world (page_with (CanvasElement blank_view initial_state)) grid_10_20)
              (snd (update "view" (world (page_with (CanvasElement blank_view initial_state)) grid_10_20)))
              "view" 200) as [Hs _]; [reflexivity|].
  exact Hs.
Defined.

(** * Further properties of the class *)

Section Composition.
Context `{Backend}.

(** ** Helper facts *)

Lemma composite_keeps_opaque (src dst : pixel) :
  existsb covers_all dst = true -> existsb covers_all (composite src dst) = true.
Proof.
  intros Hd. unfold composite.
  destruct (existsb covers_all src) eqn:Hs; [exact Hs|].
  rewrite existsb_app, Hd. apply orb_true_r.
Qed.

Lemma draw_in_bounds (w : World) x y s circle s' px py :
  in_bounds (buffer (self (snd (draw x y s circle s' w)))) px py
  = in_bounds (buffer (self w)) px py.
Proof.
  destruct (draw_frame w x y s circle s') as (_ & _ & _ & Hw & Hh).
  unfold in_bounds. rewrite Hw, Hh. reflexivity.
Qed.

Lemma drawLine_pixels (w : World) x1 y1 x2 y2 px py :
  pixels (buffer (self (snd (drawLine x1 y1 x2 y2 w)))) px py
  = let c := cSize (self w) in
    let seg := [PSeg (x1 * c + c / 2) (y1 * c + c / 2) (x2 * c + c / 2) (y2 * c + c / 2)] in
    if in_bounds (buffer (self w)) px py
    then composite (stroke_layers seg black px py) (pixels (buffer (self w)) px py)
    else pixels (buffer (self w)) px py.
Proof.
  unfold drawLine, mbind, M_bind, mret, M_ret, call, this_cSize. simpl.
  rewrite set_strokeStyle_black. reflexivity.
Qed.

(** Inside the cell and the buffer, a call with an opaque cell colour
    leaves paint that does not depend on what was there. *)
Lemma draw_cell_pixels_opaque (w : World) x y s circle s' col px py :
  0 <= cSize (self w) ->
  parse_color s = Some col ->
  is_opaque col = true ->
  in_bounds (buffer (self w)) px py = true ->
  between (x * cSize (self w)) (x * cSize (self w) + cSize (self w)) px
  && between (y * cSize (self w)) (y * cSize (self w) + cSize (self w)) py = true ->
  let c := cSize (self w) in
  let m := [PArc (x * c + c / 2) (y * c + c / 2) (c / 2 - 1)] in
  let mcol := match parse_color s' with Some v => v | None => col end in
  pixels (buffer (self (snd (draw x y s circle s' w)))) px py
  = if circle && (2 <=? c)
    then composite (stroke_layers m black px py)
           (composite (fill_layers m mcol px py) [Cover col])
    else [Cover col].
Proof.
  intros Hc Hcol Hop Hin Hcell. cbv zeta.
  rewrite draw_pixels. cbv zeta.
  rewrite Hcol, Hin, fill_layers_square, Hcell by lia.
  fold (over (Cover col) (pixels (buffer (self w)) px py)).
  rewrite over_opaque by exact Hop. reflexivity.
Qed.

(** A pixel belongs to at most one cell of a row. *)
Lemma cell_unique (c x x' p : Z) :
  0 < c ->
  between (x * c) (x * c + c) p = true ->
  between (x' * c) (x' * c + c) p = true ->
  x = x'.
Proof.
  intros Hc Hx Hx'. unfold between in Hx, Hx'.
  apply andb_true_iff in Hx, Hx'. destruct Hx as [H1 H2], Hx' as [H3 H4].
  apply Z.leb_le in H1, H3. apply Z.ltb_lt in H2, H4. nia.
Qed.

(** ** draw *)

(** X1.  A [draw] call never changes a pixel outside the cell's square,
    whatever its arguments and whether it returns or raises, as long as the
    cell size is not negative. *)
Theorem draw_leaves_other_pixels (w : World) (x y : Z) (cellColor : string)
    (circle : bool) (circleColor : string) (px py : Z) :
  0 <= cSize (self w) ->
  between (x * cSize (self w)) (x * cSize (self w) + cSize (self w)) px
  && between (y * cSize (self w)) (y * cSize (self w) + cSize (self w)) py = false ->
  pixels (buffer (self (snd (draw x y cellColor circle circleColor w)))) px py
  = pixels (buffer (self w)) px py.
Proof.
  intros Hc Hout. rewrite draw_pixels. cbv zeta.
  rewrite fill_layers_square, Hout by lia. rewrite composite_nil_l.
  destruct circle; simpl.
  - destruct (Z.leb_spec 2 (cSize (self w))) as [Hc2 | Hc2].
    + destruct (marker_inside_cell (cSize (self w)) x y px py Hc2 Hout) as [Hfc Hsc].
      unfold stroke_layers, fill_layers. rewrite Hfc, Hsc, !composite_nil_l.
      destruct (in_bounds (buffer (self w)) px py); reflexivity.
    + destruct (in_bounds (buffer (self w)) px py); reflexivity.
  - destruct (in_bounds (buffer (self w)) px py); reflexivity.
Qed.

(** What a call paints at a pixel depends on the world only through the
    cell size, the buffer's bounds and the pixel itself, once the cell
    colour is a CSS colour. *)
Lemma draw_pixels_local (wa wb : World) x y s circle s' col px py :
  parse_color s = Some col ->
  cSize (self wa) = cSize (self wb) ->
  in_bounds (buffer (self wa)) px py = in_bounds (buffer (self wb)) px py ->
  pixels (buffer (self wa)) px py = pixels (buffer (self wb)) px py ->
  pixels (buffer (self (snd (draw x y s circle s' wa)))) px py
  = pixels (buffer (self (snd (draw x y s circle s' wb)))) px py.
Proof.
  intros Hcol Hc Hin Hpx. rewrite !draw_pixels. cbv zeta.
  rewrite Hcol, Hc, Hin, Hpx. reflexivity.
Qed.

(** X2.  Calls on two different cells commute: with CSS cell colours and a
    positive cell size, drawing cell A then cell B leaves every pixel of
    the buffer as drawing B then A does. *)
Theorem draw_cells_commute (w : World)
    (xa ya : Z) (colorA : string) (circleA : bool) (circleColorA : string)
    (xb yb : Z) (colorB : string) (circleB : bool) (circleColorB : string)
    (colA colB : Color) (px py : Z) :
  0 < cSize (self w) ->
  parse_color colorA = Some colA ->
  parse_color colorB = Some colB ->
  (xa, ya) <> (xb, yb) ->
  pixels (buffer (self (snd (draw xb yb colorB circleB circleColorB
                               (snd (draw xa ya colorA circleA circleColorA w)))))) px py
  = pixels (buffer (self (snd (draw xa ya colorA circleA circleColorA
                                 (snd (draw xb yb colorB circleB circleColorB w)))))) px py.
Proof.
  intros Hc HA HB Hne.
  set (c := cSize (self w)) in *.
  destruct (draw_frame w xa ya colorA circleA circleColorA) as (_ & _ & HcA & _ & _).
  destruct (draw_frame w xb yb colorB circleB circleColorB) as (_ & _ & HcB & _ & _).
  destruct (between (xa * c) (xa * c + c) px && between (ya * c) (ya * c + c) py) eqn:EA.
  - (* the pixel is in A, hence not in B *)
    assert (EB : between (xb * c) (xb * c + c) px
                 && between (yb * c) (yb * c + c) py = false).
    { destruct (between (xb * c) (xb * c + c) px
                && between (yb * c) (yb * c + c) py) eqn:EB; [|reflexivity].
      exfalso. apply Hne.
      apply andb_true_iff in EA, EB. destruct EA as [EAx EAy], EB as [EBx EBy].
      rewrite (cell_unique c xa xb px Hc EAx EBx), (cell_unique c ya yb py Hc EAy EBy).
      reflexivity. }
    rewrite draw_leaves_other_pixels by (rewrite HcA; fold c; first [lia | exact EB]).
    apply draw_pixels_local with (col := colA); [exact HA | congruence | |].
    + rewrite draw_in_bounds. reflexivity.
    + symmetry. apply draw_leaves_other_pixels; [fold c; lia | exact EB].
  - (* the pixel is outside A *)
    rewrite (draw_leaves_other_pixels (snd (draw xb yb colorB circleB circleColorB w)))
      by (rewrite HcB; fold c; first [lia | exact EA]).
    apply draw_pixels_local with (col := colB); [exact HB | congruence | |].
    + rewrite draw_in_bounds. reflexivity.
    + apply draw_leaves_other_pixels; [fold c; lia | exact EA].
Qed.

(** X3.  Redrawing a cell is idempotent for an opaque cell colour: the
    same call made twice in a row leaves every pixel of the buffer as the
    call made once. *)
Theorem draw_twice_same (w : World) (x y : Z) (cellColor : string) (circle : bool)
    (circleColor : string) (col : Color) (px py : Z) :
  0 <= cSize (self w) ->
  parse_color cellColor = Some col ->
  is_opaque col = true ->
  let w1 := snd (draw x y cellColor circle circleColor w) in
  pixels (buffer (self (snd (draw x y cellColor circle circleColor w1)))) px py
  = pixels (buffer (self w1)) px py.
Proof.
  intros Hc Hcol Hop. cbv zeta.
  destruct (draw_frame w x y cellColor circle circleColor) as (_ & _ & Hcs & _ & _).
  set (c := cSize (self w)) in *.
  destruct (between (x * c) (x * c + c) px && between (y * c) (y * c + c) py) eqn:Ecell.
  - destruct (in_bounds (buffer (self w)) px py) eqn:Ein.
    + rewrite (draw_cell_pixels_opaque (snd (draw x y cellColor circle circleColor w))
                 x y cellColor circle circleColor col px py);
        [| rewrite Hcs; fold c; lia | exact Hcol | exact Hop
         | rewrite draw_in_bounds; exact Ein | rewrite Hcs; exact Ecell].
      rewrite (draw_cell_pixels_opaque w x y cellColor circle circleColor col px py);
        [| fold c; lia | exact Hcol | exact Hop | exact Ein | exact Ecell].
      cbv zeta. rewrite Hcs. reflexivity.
    + rewrite draw_pixels. cbv zeta. rewrite draw_in_bounds, Ein.
      destruct (circle && (2 <=? cSize (self (snd (draw x y cellColor circle circleColor w)))));
        reflexivity.
  - apply draw_leaves_other_pixels; rewrite Hcs; [fold c; lia | exact Ecell].
Qed.

(** X4.  Coordinates outside the grid are accepted and change nothing:
    when the buffer is no larger than [size * cSize] on each axis, a
    [draw] call for a cell with [x] or [y] outside [0 .. size-1] leaves
    every pixel of the buffer as it was. *)
Theorem draw_outside_grid (w : World) (x y : Z) (cellColor : string) (circle : bool)
    (circleColor : string) (px py : Z) :
  0 <= cSize (self w) ->
  width (buffer (self w)) <= size (self w) * cSize (self w) ->
  height (buffer (self w)) <= size (self w) * cSize (self w) ->
  x < 0 \/ size (self w) <= x \/ y < 0 \/ size (self w) <= y ->
  pixels (buffer (self (snd (draw x y cellColor circle circleColor w)))) px py
  = pixels (buffer (self w)) px py.
Proof.
  intros Hc Hw Hh Hxy.
  set (c := cSize (self w)) in *.
  destruct (between (x * c) (x * c + c) px && between (y * c) (y * c + c) py) eqn:Ecell;
    [| apply draw_leaves_other_pixels; [fold c; lia | exact Ecell]].
  assert (Hin : in_bounds (buffer (self w)) px py = false).
  { unfold in_bounds.
    destruct (between 0 (width (buffer (self w))) px
              && between 0 (height (buffer (self w))) py) eqn:Ein; [|reflexivity].
    exfalso. apply andb_true_iff in Ecell, Ein.
    destruct Ecell as [Ex Ey], Ein as [Ix Iy]. unfold between in *.
    apply andb_true_iff in Ex, Ey, Ix, Iy.
    destruct Ex as [Ex1 Ex2], Ey as [Ey1 Ey2], Ix as [Ix1 Ix2], Iy as [Iy1 Iy2].
    apply Z.leb_le in Ex1, Ey1, Ix1, Iy1. apply Z.ltb_lt in Ex2, Ey2, Ix2, Iy2.
    destruct Hxy as [Hx | [Hx | [Hy | Hy]]]; nia. }
  rewrite draw_pixels. cbv zeta. fold c. rewrite Hin.
  destruct (circle && (2 <=? c)); reflexivity.
Qed.

(** X5.  A cell colour that is not a CSS colour is ignored, and the cell is
    filled with the fill style the context still holds.  After a call that
    drew a marker, that style is the marker's colour: the next cell drawn
    with an invalid colour is filled with it. *)
Theorem draw_invalid_colour_reuses_marker_colour (w : World)
    (x y : Z) (cellColor circleColor : string) (mcol : Color)
    (x' y' : Z) (badColor circleColor' : string) (px py : Z) :
  2 <= cSize (self w) ->
  parse_color circleColor = Some mcol ->
  parse_color badColor = None ->
  let c := cSize (self w) in
  let w1 := snd (draw x y cellColor true circleColor w) in
  let w2 := snd (draw x' y' badColor false circleColor' w1) in
  in_bounds (buffer (self w)) px py = true ->
  between (x' * c) (x' * c + c) px && between (y' * c) (y' * c + c) py = true ->
  pixels (buffer (self w2)) px py = over (Cover mcol) (pixels (buffer (self w1)) px py).
Proof.
  intros Hc Hm Hbad. cbv zeta. intros Hin Hcell.
  destruct (draw_frame w x y cellColor true circleColor) as (_ & _ & Hcs & _ & _).
  destruct (draw_marker_context w x y cellColor circleColor Hc) as (_ & _ & Hf).
  rewrite draw_pixels. cbv zeta.
  rewrite Hbad, (Hf mcol Hm), Hcs, draw_in_bounds, Hin.
  rewrite fill_layers_square, Hcell by lia. reflexivity.
Qed.

(** X6.  In a cell of side 2 or 3 the marker has radius 0 and paints
    nothing: its disc covers no pixel and a single point has no outline.
    The call with a marker returns the cell size and leaves every pixel of
    the buffer exactly as the call without a marker does. *)
Theorem draw_marker_tiny_cell (w : World) (x y : Z) (cellColor circleColor : string)
    (px py : Z) :
  2 <= cSize (self w) <= 3 ->
  fst (draw x y cellColor true circleColor w) = Return (cSize (self w))
  /\ pixels (buffer (self (snd (draw x y cellColor true circleColor w)))) px py
     = pixels (buffer (self (snd (draw x y cellColor false circleColor w)))) px py.
Proof.
  intros Hc.
  assert (Hh : cSize (self w) / 2 = 1) by (pose proof (half_bounds (cSize (self w))); lia).
  split.
  { rewrite draw_outcome. destruct (Z.ltb_spec (cSize (self w)) 2); [lia | reflexivity]. }
  rewrite !draw_pixels. cbv zeta. rewrite Hh.
  destruct (Z.leb_spec 2 (cSize (self w))); [|lia]. simpl andb. cbv iota.
  assert (Hf : forall v, fill_layers [PArc (x * cSize (self w) + 1)
                                          (y * cSize (self w) + 1) (1 - 1)] v px py = []).
  { intros v. unfold fill_layers, fill_coverage. simpl.
    change ((1 - 1) * (1 - 1)) with 0.
    pose proof (gap_nonneg (x * cSize (self w) + 1) px).
    pose proof (gap_nonneg (y * cSize (self w) + 1) py).
    assert (0 < reach (x * cSize (self w) + 1) px) by (unfold reach; lia).
    assert (0 <= reach (y * cSize (self w) + 1) py) by (unfold reach; lia).
    destruct (Z.leb_spec (reach (x * cSize (self w) + 1) px * reach (x * cSize (self w) + 1) px
                          + reach (y * cSize (self w) + 1) py * reach (y * cSize (self w) + 1) py)
                         0); [nia|].
    destruct (Z.ltb_spec (gap (x * cSize (self w) + 1) px * gap (x * cSize (self w) + 1) px
                          + gap (y * cSize (self w) + 1) py * gap (y * cSize (self w) + 1) py)
                         0); [nia | reflexivity]. }
  assert (Hs : stroke_layers [PArc (x * cSize (self w) + 1)
                                (y * cSize (self w) + 1) (1 - 1)] black px py = []).
  { unfold stroke_layers, stroke_coverage. simpl. reflexivity. }
  rewrite Hf, Hs, !composite_nil_l.
  destruct (in_bounds (buffer (self w)) px py); reflexivity.
Qed.

(** X7.  In a cell of side at least 6 the marker hides the cell colour at
    the cell's centre: with an opaque marker colour, the pixel at the
    centre shows exactly the marker colour. *)
Theorem draw_marker_covers_centre (w : World) (x y : Z) (cellColor circleColor : string)
    (mcol : Color) :
  6 <= cSize (self w) ->
  parse_color circleColor = Some mcol ->
  is_opaque mcol = true ->
  let c := cSize (self w) in
  in_bounds (buffer (self w)) (x * c + c / 2) (y * c + c / 2) = true ->
  pixels (buffer (self (snd (draw x y cellColor true circleColor w))))
    (x * c + c / 2) (y * c + c / 2)
  = [Cover mcol].
Proof.
  intros Hc Hm Hop. cbv zeta. intros Hin.
  pose proof (half_bounds (cSize (self w))) as Hh.
  rewrite draw_pixels. cbv zeta. rewrite Hm, Hin.
  destruct (Z.leb_spec 2 (cSize (self w))); [|lia]. simpl andb. cbv iota.
  set (o := cSize (self w) / 2) in *.
  set (cx := x * cSize (self w) + o). set (cy := y * cSize (self w) + o).
  assert (Hrx : reach cx cx = 1) by (unfold reach; lia).
  assert (Hry : reach cy cy = 1) by (unfold reach; lia).
  assert (Hfill : fill_layers [PArc cx cy (o - 1)] mcol cx cy = [Cover mcol]).
  { unfold fill_layers, fill_coverage. simpl. rewrite Hrx, Hry.
    destruct (Z.leb_spec (1 * 1 + 1 * 1) ((o - 1) * (o - 1))); [reflexivity | nia]. }
  assert (Hstroke : stroke_layers [PArc cx cy (o - 1)] black cx cy = []).
  { unfold stroke_layers, stroke_coverage. simpl. rewrite Hrx, Hry.
    destruct (Z.ltb_spec ((2 * (o - 1) - 1) * (2 * (o - 1) - 1)) (4 * (1 * 1 + 1 * 1)));
      [nia|].
    rewrite andb_false_r. reflexivity. }
  rewrite Hfill, Hstroke, composite_nil_l.
  unfold composite. simpl. rewrite Hop. reflexivity.
Qed.

(** ** drawLine *)

(** X8.  A link stays inside the block of cells spanned by its two end
    cells: for a cell size of at least 2, [drawLine] changes no pixel
    outside the rectangle from cell [(min x1 x2, min y1 y2)] to cell
    [(max x1 x2, max y1 y2)]. *)
Theorem drawLine_within_span (w : World) (x1 y1 x2 y2 px py : Z) :
  2 <= cSize (self w) ->
  let c := cSize (self w) in
  between (Z.min x1 x2 * c) (Z.max x1 x2 * c + c) px
  && between (Z.min y1 y2 * c) (Z.max y1 y2 * c + c) py = false ->
  pixels (buffer (self (snd (drawLine x1 y1 x2 y2 w)))) px py
  = pixels (buffer (self w)) px py.
Proof.
  intros Hc. cbv zeta. intros Hout.
  pose proof (half_bounds (cSize (self w))) as Hh.
  rewrite drawLine_pixels. cbv zeta.
  set (c := cSize (self w)) in *. set (o := c / 2) in *.
  assert (Hmm : forall a b : Z,
             Z.min (a * c + o) (b * c + o) = Z.min a b * c + o
             /\ Z.max (a * c + o) (b * c + o) = Z.max a b * c + o).
  { intros a b. destruct (Z.le_ge_cases a b).
    - rewrite !Z.min_l, !Z.max_r by nia. split; reflexivity.
    - rewrite !Z.min_r, !Z.max_l by nia. split; reflexivity. }
  assert (Hs : stroke_coverage
                 [PSeg (x1 * c + o) (y1 * c + o) (x2 * c + o) (y2 * c + o)] px py = false).
  { unfold stroke_coverage. simpl. rewrite orb_false_r.
    destruct (Hmm x1 x2) as [-> ->]. destruct (Hmm y1 y2) as [-> ->].
    generalize dependent (Z.min x1 x2 * c). generalize (Z.max x1 x2 * c).
    generalize dependent (Z.min y1 y2 * c). generalize (Z.max y1 y2 * c).
    intros Y1 Y0 X1 X0 Hout.
    unfold near. unfold between in Hout.
    apply andb_false_iff in Hout. apply andb_false_iff.
    destruct Hout as [Hx | Hy]; [left | right];
      apply andb_false_iff in Hx || apply andb_false_iff in Hy;
      apply andb_false_iff.
    - destruct Hx as [Hx | Hx]; [left; apply Z.leb_gt in Hx; apply Z.leb_gt
                                | right; apply Z.ltb_ge in Hx; apply Z.leb_gt]; lia.
    - destruct Hy as [Hy | Hy]; [left; apply Z.leb_gt in Hy; apply Z.leb_gt
                                | right; apply Z.ltb_ge in Hy; apply Z.leb_gt]; lia. }
  unfold stroke_layers. rewrite Hs, composite_nil_l.
  destruct (in_bounds (buffer (self w)) px py); reflexivity.
Qed.

(** ** Sequences of calls *)

Lemma invoke_frame (k : invocation) (w : World) :
  cSize (self (invoke k w)) = cSize (self w)
  /\ size (self (invoke k w)) = size (self w)
  /\ forall px py,
       in_bounds (buffer (self (invoke k w))) px py = in_bounds (buffer (self w)) px py.
Proof.
  destruct (invoke_dimensions k w) as [Hw Hh].
  assert (Hin : forall px py,
             in_bounds (buffer (self (invoke k w))) px py
             = in_bounds (buffer (self w)) px py).
  { intros px py. unfold in_bounds. rewrite Hw, Hh. reflexivity. }
  destruct k as [x y s b s' | x1 y1 x2 y2 | id]; simpl in *.
  - destruct (draw_frame w x y s b s') as (_ & Hs & Hc & _ & _). auto.
  - destruct (drawLine_frame w x1 y1 x2 y2) as (_ & Hs & Hc & _ & _). auto.
  - destruct (update_frame w id) as [Hs _]. rewrite Hs in *. auto.
Qed.

Lemma invoke_keeps_opaque (k : invocation) (w : World) (px py : Z) :
  existsb covers_all (pixels (buffer (self w)) px py) = true ->
  existsb covers_all (pixels (buffer (self (invoke k w))) px py) = true.
Proof.
  intros Hop. destruct k as [x y s b s' | x1 y1 x2 y2 | id]; unfold invoke.
  - rewrite draw_pixels. cbv zeta.
    destruct (in_bounds (buffer (self w)) px py);
      destruct (b && (2 <=? cSize (self w)));
      repeat apply composite_keeps_opaque; exact Hop.
  - rewrite drawLine_pixels. cbv zeta.
    destruct (in_bounds (buffer (self w)) px py);
      repeat apply composite_keeps_opaque; exact Hop.
  - destruct (update_frame w id) as [Hs _]. rewrite Hs. exact Hop.
Qed.

(** X9.  The class never clears its buffer: a pixel that is opaque stays
    opaque through every later sequence of [draw], [drawLine] and [update]
    calls. *)
Theorem opaque_pixels_stay_opaque (ks : list invocation) (w : World) (px py : Z) :
  existsb covers_all (pixels (buffer (self w)) px py) = true ->
  existsb covers_all (pixels (buffer (self (invoke_all ks w))) px py) = true.
Proof.
  revert w. induction ks as [|k ks IH]; intros w Hop; simpl.
  - exact Hop.
  - apply IH. apply invoke_keeps_opaque. exact Hop.
Qed.

(** X10.  [draw] and [drawLine] work on the buffer only: a sequence of
    calls without [update] leaves the page exactly as it was, so nothing
    becomes visible before the flush. *)
Theorem drawing_leaves_page (ks : list invocation) (w : World) :
  (forall id, ~ In (Update id) ks) ->
  document (invoke_all ks w) = document w.
Proof.
  revert w. induction ks as [|k ks IH]; intros w Hno; simpl; [reflexivity|].
  rewrite IH by (intros id Hin; apply (Hno id); right; exact Hin).
  destruct k as [x y s b s' | x1 y1 x2 y2 | id]; unfold invoke.
  - destruct (draw_frame w x y s b s') as (Hd & _). exact Hd.
  - destruct (drawLine_frame w x1 y1 x2 y2) as (Hd & _). exact Hd.
  - exfalso. apply (Hno id). left. reflexivity.
Qed.

(** Once a cell has been drawn with an opaque colour, its pixels are
    opaque at the end of the sequence. *)
Lemma drawn_cell_opaque (ks : list invocation) (w : World)
    x y s circle s' col px py :
  In (Draw x y s circle s') ks ->
  parse_color s = Some col ->
  is_opaque col = true ->
  0 <= cSize (self w) ->
  in_bounds (buffer (self w)) px py = true ->
  between (x * cSize (self w)) (x * cSize (self w) + cSize (self w)) px
  && between (y * cSize (self w)) (y * cSize (self w) + cSize (self w)) py = true ->
  existsb covers_all (pixels (buffer (self (invoke_all ks w))) px py) = true.
Proof.
  intros Hin Hcol Hop. revert w Hin.
  induction ks as [|k ks IH]; intros w Hin Hc Hb Hcell; [destruct Hin|].
  simpl. destruct Hin as [-> | Hin].
  - apply opaque_pixels_stay_opaque. simpl.
    rewrite (draw_cell_pixels_opaque w x y s circle s' col px py Hc Hcol Hop Hb Hcell).
    cbv zeta.
    destruct (circle && (2 <=? cSize (self w)));
      repeat apply composite_keeps_opaque; simpl; rewrite Hop; reflexivity.
  - destruct (invoke_frame k w) as (Hcs & _ & Hib).
    apply IH; [exact Hin | rewrite Hcs; exact Hc | rewrite Hib; exact Hb
              | rewrite Hcs; exact Hcell].
Qed.

(** X11.  A full redraw makes the buffer opaque: on an instance whose
    buffer is [size * cSize] pixels wide and high, after any sequence of
    calls that draws every cell of the grid at least once with an opaque
    colour, every pixel of the buffer is opaque. *)
Theorem full_redraw_opaque (ks : list invocation) (w : World) :
  0 < cSize (self w) ->
  width (buffer (self w)) = size (self w) * cSize (self w) ->
  height (buffer (self w)) = size (self w) * cSize (self w) ->
  (forall x y, 0 <= x < size (self w) -> 0 <= y < size (self w) ->
     exists s circle s' col,
       In (Draw x y s circle s') ks
       /\ parse_color s = Some col /\ is_opaque col = true) ->
  forall px py,
    in_bounds (buffer (self w)) px py = true ->
    existsb covers_all (pixels (buffer (self (invoke_all ks w))) px py) = true.
Proof.
  intros Hc Hw Hh Hall px py Hin.
  set (c := cSize (self w)) in *. set (d := size (self w)) in *.
  assert (Hb : (0 <= px < d * c) /\ (0 <= py < d * c)).
  { unfold in_bounds, between in Hin. rewrite Hw, Hh in Hin.
    apply andb_true_iff in Hin. destruct Hin as [Hx Hy].
    apply andb_true_iff in Hx, Hy. destruct Hx as [Hx0 Hx1], Hy as [Hy0 Hy1].
    apply Z.leb_le in Hx0, Hy0. apply Z.ltb_lt in Hx1, Hy1. lia. }
  destruct Hb as [Hbx Hby].
  assert (Hdiv : forall p, 0 <= p < d * c ->
             0 <= p / c < d /\ between (p / c * c) (p / c * c + c) p = true).
  { intros p Hp.
    pose proof (Z.div_mod p c ltac:(lia)) as Hdm.
    pose proof (Z.mod_pos_bound p c Hc) as Hmod.
    assert (0 <= p / c) by (apply Z.div_pos; lia).
    assert (p / c < d) by (apply Z.div_lt_upper_bound; lia).
    split; [lia|].
    unfold between. apply andb_true_iff. split; [apply Z.leb_le | apply Z.ltb_lt]; lia. }
  destruct (Hdiv px Hbx) as [Hx Hcx]. destruct (Hdiv py Hby) as [Hy Hcy].
  destruct (Hall (px / c) (py / c) Hx Hy) as (s & circle & s' & col & Hk & Hcol & Hop).
  apply (drawn_cell_opaque ks w (px / c) (py / c) s circle s' col px py Hk Hcol Hop);
    [fold c; lia | exact Hin | fold c; rewrite Hcx, Hcy; reflexivity].
Qed.

(** ** update *)

(** A successful [update] onto a canvas of the buffer's size whose context
    is in a plain state. *)
Lemma update_same_size (w : World) (id : string) (cv : Canvas) (st : DrawState) :
  document w !! id = Some (CanvasElement cv st) ->
  plain_context cv st = true ->
  0 < width (buffer (self w)) ->
  0 < height (buffer (self w)) ->
  width cv = width (buffer (self w)) ->
  height cv = height (buffer (self w)) ->
  exists cv' st',
    update id w
    = (Return (width cv),
       {| document := <[id := CanvasElement cv' st']> (document w); self := self w |})
    /\ width cv' = width cv
    /\ height cv' = height cv
    /\ plain_context cv' st' = true
    /\ forall px py,
         in_bounds cv px py = true ->
         pixels cv' px py
         = composite (pixels (buffer (self w)) px py) (pixels cv px py).
Proof.
  intros E Hpc Hw Hh Ew Eh.
  destruct (plain_context_inv cv st Hpc) as (cv0 & st0 & Hg & Hp).
  destruct (getContext2d_canvas cv cv0 st st0 Hg) as (Ew0 & Eh0 & Ep0 & Em0 & _).
  eexists. exists st0. split.
  { rewrite <- Ew0.
    apply (update_visible w id cv cv0 st st0); [exact E | exact Hg | exact Hp | lia | lia]. }
  split; [exact Ew0|]. split; [exact Eh0|]. split.
  { unfold plain_context, getContext2d. simpl. rewrite Em0. exact Hp. }
  intros px py Hin.
  destruct (in_bounds_inv cv px py Hin) as [Hx Hy].
  rewrite blit_pixel.
  assert (Hin0 : in_bounds cv0 px py = true).
  { unfold in_bounds in *. rewrite Ew0, Eh0. exact Hin. }
  rewrite Hin0, Ep0, Ew0, Eh0, Ew, Eh.
  rewrite sample_same_size by lia.
  f_equal. f_equal; lia.
Qed.


(** X13.  An instance whose buffer has no pixels (for example one created
    with a zero argument) cannot be flushed: [update] on an existing canvas
    raises InvalidStateError, and neither the instance nor the canvas's
    size and pixels change. *)
Theorem update_empty_buffer_fails (w : World) (id : string) (cv : Canvas)
    (st : DrawState) :
  document w !! id = Some (CanvasElement cv st) ->
  mode cv <> ModeOther ->
  width (buffer (self w)) = 0 \/ height (buffer (self w)) = 0 ->
  exists cv' st',
    update id w
    = (Throw InvalidStateError,
       {| document := <[id := CanvasElement cv' st']> (document w); self := self w |})
    /\ width cv' = width cv
    /\ height cv' = height cv
    /\ pixels cv' = pixels cv.
Proof.
  intros E Hm Hz.
  assert (Hg : exists cv0 st0, getContext2d cv st = Some (cv0, st0)).
  { unfold getContext2d. destruct (mode cv); [eauto | eauto | congruence]. }
  destruct Hg as (cv0 & st0 & Hg).
  destruct (getContext2d_canvas cv cv0 st st0 Hg) as (Ew0 & Eh0 & Ep0 & _ & _).
  exists cv0, st0. split; [|repeat split; assumption].
  unfold update, mbind, M_bind, mret, M_ret, getElementById, getContext,
    ctx_canvas, ctx_drawImage, this_buffer.
  rewrite E. simpl. rewrite E. simpl.
  rewrite Hg. simpl. rewrite lookup_insert_eq. simpl. rewrite lookup_insert_eq.
  unfold drawImage.
  assert (Hz' : (width (buffer (self w)) =? 0) || (height (buffer (self w)) =? 0) = true).
  { apply orb_true_iff. destruct Hz as [Hz | Hz]; [left | right]; apply Z.eqb_eq; exact Hz. }
  rewrite Hz'. reflexivity.
Qed.


(** X15.  A drawn cell reaches the screen: after [draw] with an opaque
    cell colour and no marker, [update] onto a canvas of the buffer's size
    whose 2D context is in a plain drawing state shows exactly that colour
    at every pixel of the cell. *)
Theorem draw_then_update_shows_cell (w : World) (x y : Z) (cellColor circleColor : string)
    (col : Color) (id : string) (cv : Canvas) (st : DrawState) :
  0 < cSize (self w) ->
  parse_color cellColor = Some col ->
  is_opaque col = true ->
  document w !! id = Some (CanvasElement cv st) ->
  plain_context cv st = true ->
  0 < width (buffer (self w)) ->
  0 < height (buffer (self w)) ->
  width cv = width (buffer (self w)) ->
  height cv = height (buffer (self w)) ->
  let c := cSize (self w) in
  let w1 := snd (draw x y cellColor false circleColor w) in
  exists cv' st',
    update id w1
    = (Return (width cv),
       {| document := <[id := CanvasElement cv' st']> (document w); self := self w1 |})
    /\ forall px py,
         in_bounds cv px py = true ->
         between (x * c) (x * c + c) px && between (y * c) (y * c + c) py = true ->
         pixels cv' px py = [Cover col].
Proof.
  intros Hc Hcol Hop E Hpc Hw Hh Ew Eh. cbv zeta.
  destruct (draw_frame w x y cellColor false circleColor) as (Hd & _ & _ & Hw1 & Hh1).
  destruct (update_same_size (snd (draw x y cellColor false circleColor w)) id cv st)
    as (cv' & st' & U & _ & _ & _ & P);
    [rewrite Hd; exact E | exact Hpc | rewrite Hw1; exact Hw | rewrite Hh1; exact Hh
     | congruence | congruence |].
  rewrite Hd in U. exists cv', st'. split; [exact U|].
  intros px py Hin Hcell. rewrite (P px py Hin).
  assert (Hin' : in_bounds (buffer (self w)) px py = true).
  { unfold in_bounds in *. rewrite <- Ew, <- Eh. exact Hin. }
  rewrite (draw_cell_pixels_opaque w x y cellColor false circleColor col px py);
    [| lia | exact Hcol | exact Hop | exact Hin' | exact Hcell].
  cbv zeta. simpl. unfold composite. simpl. rewrite Hop. reflexivity.
Qed.

(** ** constructor *)

(** X16.  Whatever the arguments, the buffer's width and height are
    between 0 and 2147483647.  A zero argument gives an empty buffer, and
    arguments whose product is negative (down to -2147483648) give the
    canvas default of 300 x 150 instead. *)
Theorem constructor_buffer_range (d c : Z) :
  exists this,
    constructor d c = Return this
    /\ 0 <= width (buffer this) <= 2147483647
    /\ 0 <= height (buffer this) <= 2147483647
    /\ (d * c = 0 -> width (buffer this) = 0 /\ height (buffer this) = 0)
    /\ (-2147483648 <= d * c < 0 ->
        width (buffer this) = 300 /\ height (buffer this) = 150).
Proof.
  eexists. split; [reflexivity|]. simpl.
  unfold reflect_unsigned, to_uint32.
  pose proof (Z.mod_pos_bound (d * c) 4294967296 ltac:(lia)) as Hmod.
  split; [|split; [|split]].
  - destruct (Z.leb_spec ((d * c) mod 4294967296) 2147483647); lia.
  - destruct (Z.leb_spec ((d * c) mod 4294967296) 2147483647); lia.
  - intros ->. split; reflexivity.
  - intros Hneg.
    assert (Hm : (d * c) mod 4294967296 = d * c + 4294967296).
    { symmetry. apply (Z.mod_unique (d * c) 4294967296 (-1)); lia. }
    rewrite Hm.
    destruct (Z.leb_spec (d * c + 4294967296) 2147483647); [lia|].
    split; reflexivity.
Qed.

(** ** draw and drawLine together *)

(** X17.  The order of a cell and a link matters.  A cell drawn after a
    link, with an opaque colour and no marker, erases the link inside the
    cell; a link drawn after the cell lies on top of the cell colour. *)
Theorem draw_order_with_link (w : World) (x1 y1 x2 y2 x y : Z)
    (cellColor circleColor : string) (col : Color) (px py : Z) :
  0 <= cSize (self w) ->
  parse_color cellColor = Some col ->
  is_opaque col = true ->
  in_bounds (buffer (self w)) px py = true ->
  between (x * cSize (self w)) (x * cSize (self w) + cSize (self w)) px
  && between (y * cSize (self w)) (y * cSize (self w) + cSize (self w)) py = true ->
  let c := cSize (self w) in
  let seg := [PSeg (x1 * c + c / 2) (y1 * c + c / 2) (x2 * c + c / 2) (y2 * c + c / 2)] in
  pixels (buffer (self (snd (draw x y cellColor false circleColor
                               (snd (drawLine x1 y1 x2 y2 w)))))) px py
  = [Cover col]
  /\ pixels (buffer (self (snd (drawLine x1 y1 x2 y2
                                  (snd (draw x y cellColor false circleColor w)))))) px py
     = composite (stroke_layers seg black px py) [Cover col].
Proof.
  intros Hc Hcol Hop Hin Hcell. cbv zeta. split.
  - destruct (drawLine_frame w x1 y1 x2 y2) as (_ & _ & Hcs & Hw & Hh).
    rewrite (draw_cell_pixels_opaque (snd (drawLine x1 y1 x2 y2 w))
               x y cellColor false circleColor col px py);
      [reflexivity | rewrite Hcs; exact Hc | exact Hcol | exact Hop
       | unfold in_bounds in *; rewrite Hw, Hh; exact Hin | rewrite Hcs; exact Hcell].
  - destruct (draw_frame w x y cellColor false circleColor) as (_ & _ & Hcs & _ & _).
    rewrite drawLine_pixels. cbv zeta.
    rewrite Hcs, draw_in_bounds, Hin.
    rewrite (draw_cell_pixels_opaque w x y cellColor false circleColor col px py
               Hc Hcol Hop Hin Hcell).
    reflexivity.
Qed.

End Composition.

(** * Witnesses of the further properties *)

Ltac crunch :=
  first [ reflexivity | discriminate
        | vm_compute; first [reflexivity | discriminate | intuition discriminate] ].

Lemma draw_leaves_other_pixels_witness :
  pixels (buffer (self (snd (draw 3 4 "#ff0000" true "#0000ff" (world ∅ grid_10_20))))) 59 80
  = pixels (buffer grid_10_20) 59 80.
Proof.
  apply (draw_leaves_other_pixels (world ∅ grid_10_20) 3 4 "#ff0000" true "#0000ff" 59 80);
    crunch.
Defined.

Lemma draw_cells_commute_witness :
  pixels (buffer (self (snd (draw 5 5 "#00ff00" true "#0000ff"
                               (snd (draw 3 4 "#ff0000" false "#000000"
                                       (world ∅ grid_10_20))))))) 65 85
  = pixels (buffer (self (snd (draw 3 4 "#ff0000" false "#000000"
                                 (snd (draw 5 5 "#00ff00" true "#0000ff"
                                         (world ∅ grid_10_20))))))) 65 85.
Proof.
  apply (draw_cells_commute (world ∅ grid_10_20)
           3 4 "#ff0000" false "#000000" 5 5 "#00ff00" true "#0000ff"
           red_paint (RGBA 0 255 0 255) 65 85); crunch.
Defined.

Lemma draw_twice_same_witness :
  let w1 := snd (draw 3 4 "#ff0000" true "#0000ff" (world ∅ grid_10_20)) in
  pixels (buffer (self (snd (draw 3 4 "#ff0000" true "#0000ff" w1)))) 61 90
  = pixels (buffer (self w1)) 61 90.
Proof.
  apply (draw_twice_same (world ∅ grid_10_20) 3 4 "#ff0000" true "#0000ff"
           red_paint 61 90); crunch.
Defined.

Lemma draw_outside_grid_witness :
  pixels (buffer (self (snd (draw 10 4 "#ff0000" true "#0000ff" (world ∅ grid_10_20))))) 199 80
  = pixels (buffer grid_10_20) 199 80.
Proof.
  apply (draw_outside_grid (world ∅ grid_10_20) 10 4 "#ff0000" true "#0000ff" 199 80);
    [crunch | crunch | crunch | right; left; crunch].
Defined.

Lemma draw_invalid_colour_reuses_marker_colour_witness :
  let w1 := snd (draw 3 4 "#ff0000" true "#0000ff" (world ∅ grid_10_20)) in
  pixels (buffer (self (snd (draw 5 5 "bogus" false "#000000" w1)))) 100 100
  = [Cover (RGBA 0 0 255 255)].
Proof.
  cbv zeta.
  rewrite (draw_invalid_colour_reuses_marker_colour (world ∅ grid_10_20)
             3 4 "#ff0000" "#0000ff" (RGBA 0 0 255 255) 5 5 "bogus" "#000000" 100 100);
    crunch.
Defined.

Lemma draw_marker_tiny_cell_witness :
  fst (draw 1 0 "#00ff00" true "#0000ff" (world ∅ grid_2_3)) = Return 3
  /\ pixels (buffer (self (snd (draw 1 0 "#00ff00" true "#0000ff" (world ∅ grid_2_3))))) 4 1
     = [Cover (RGBA 0 255 0 255)].
Proof.
  destruct (draw_marker_tiny_cell (world ∅ grid_2_3) 1 0 "#00ff00" "#0000ff" 4 1)
    as [R P]; [split; crunch|].
  split; [exact R | rewrite P; reflexivity].
Defined.

Lemma draw_marker_covers_centre_witness :
  pixels (buffer (self (snd (draw 3 4 "#00ff00" true "#0000ff" (world ∅ grid_10_20)))))
    (3 * 20 + 20 / 2) (4 * 20 + 20 / 2)
  = [Cover (RGBA 0 0 255 255)].
Proof.
  apply (draw_marker_covers_centre (world ∅ grid_10_20) 3 4 "#00ff00" "#0000ff"
           (RGBA 0 0 255 255)); crunch.
Defined.

Lemma drawLine_within_span_witness :
  pixels (buffer (self (snd (drawLine 3 4 5 5 (world ∅ grid_10_20))))) 59 90
  = pixels (buffer grid_10_20) 59 90.
Proof.
  apply (drawLine_within_span (world ∅ grid_10_20) 3 4 5 5 59 90); crunch.
Defined.

Lemma opaque_pixels_stay_opaque_witness :
  let w1 := snd (draw 3 4 "#ff0000" false "#000000" (world ∅ grid_10_20)) in
  existsb covers_all
    (pixels (buffer (self (invoke_all
                             [DrawLine 3 4 5 5; Draw 3 4 "bogus" true "rgba(0,0,0,0.5)";
                              Update "view"] w1))) 70 90)
  = true.
Proof.
  apply (opaque_pixels_stay_opaque
           [DrawLine 3 4 5 5; Draw 3 4 "bogus" true "rgba(0,0,0,0.5)"; Update "view"]
           (snd (draw 3 4 "#ff0000" false "#000000" (world ∅ grid_10_20))) 70 90).
  crunch.
Defined.

Lemma drawing_leaves_page_witness :
  document (invoke_all [Draw 3 4 "#ff0000" true "#0000ff"; DrawLine 3 4 5 5]
              (world (page_with (CanvasElement blank_view initial_state)) grid_10_20))
  = page_with (CanvasElement blank_view initial_state).
Proof.
  apply (drawing_leaves_page [Draw 3 4 "#ff0000" true "#0000ff"; DrawLine 3 4 5 5]
           (world (page_with (CanvasElement blank_view initial_state)) grid_10_20)).
  intros id [Hk | [Hk | []]]; discriminate Hk.
Defined.

Lemma redraw_2x2_covers (x y : Z) :
  0 <= x < 2 -> 0 <= y < 2 ->
  exists s circle s' col,
    In (Draw x y s circle s') redraw_2x2
    /\ demo_parse s = Some col /\ is_opaque col = true.
Proof.
  intros Hx Hy.
  assert (Ex : x = 0 \/ x = 1) by lia. assert (Ey : y = 0 \/ y = 1) by lia.
  destruct Ex as [-> | ->], Ey as [-> | ->].
  - exists "#ff0000", false, "#000000", red_paint. simpl. auto.
  - exists "#0000ff", false, "#000000", (RGBA 0 0 255 255). simpl. auto 6.
  - exists "#00ff00", true, "#0000ff", (RGBA 0 255 0 255). simpl. auto.
  - exists "#000000", false, "#000000", black. simpl. auto 6.
Defined.

Lemma full_redraw_opaque_witness :
  existsb covers_all
    (pixels (buffer (self (invoke_all redraw_2x2 (world ∅ grid_2_3)))) 4 1)
  = true.
Proof.
  apply (full_redraw_opaque redraw_2x2 (world ∅ grid_2_3));
    [crunch | crunch | crunch | exact redraw_2x2_covers | crunch].
Defined.


Lemma update_empty_buffer_fails_witness :
  constructor 0 20 = Return grid_0_20
  /\ fst (update "view"
            (world (page_with (CanvasElement blank_view initial_state)) grid_0_20))
     = Throw InvalidStateError.
Proof.
  split; [reflexivity|].
  destruct (update_empty_buffer_fails
              (world (page_with (CanvasElement blank_view initial_state)) grid_0_20)
              "view" blank_view initial_state)
    as (cv' & st' & U & _); [crunch | crunch | left; crunch |].
  rewrite U. reflexivity.
Defined.


Lemma draw_then_update_shows_cell_witness :
  let w := world (page_with (CanvasElement blank_view initial_state)) grid_10_20 in
  exists cv' st',
    update "view" (snd (draw 3 4 "#ff0000" false "#000000" w))
    = (Return 200,
       {| document := <["view" := CanvasElement cv' st']> (document w);
          self := self (snd (draw 3 4 "#ff0000" false "#000000" w)) |})
    /\ pixels cv' 60 80 = [Cover red_paint].
Proof.
  cbv zeta.
  destruct (draw_then_update_shows_cell
              (world (page_with (CanvasElement blank_view initial_state)) grid_10_20)
              3 4 "#ff0000" "#000000" red_paint "view" blank_view initial_state)
    as (cv' & st' & U & P);
    [crunch | crunch | crunch | crunch | crunch | crunch | crunch | crunch | crunch |].
  exists cv', st'. split; [exact U|].
  apply P; reflexivity.
Defined.

Lemma constructor_buffer_range_witness :
  exists this,
    constructor (-3) 20 = Return this
    /\ width (buffer this) = 300 /\ height (buffer this) = 150.
Proof.
  destruct (constructor_buffer_range (-3) 20) as (this & E & _ & _ & _ & Hneg).
  exists this. split; [exact E|]. apply Hneg. lia.
Defined.

Lemma draw_order_with_link_witness :
  pixels (buffer (self (snd (draw 3 4 "#ff0000" false "#000000"
                               (snd (drawLine 3 4 5 5 (world ∅ grid_10_20))))))) 70 90
  = [Cover red_paint]
  /\ pixels (buffer (self (snd (drawLine 3 4 5 5
                                  (snd (draw 3 4 "#ff0000" false "#000000"
                                          (world ∅ grid_10_20))))))) 70 90
     = [Edge black (StrokeOf [PSeg 70 90 110 110]); Cover red_paint].
Proof.
  destruct (draw_order_with_link (world ∅ grid_10_20) 3 4 5 5 3 4
              "#ff0000" "#000000" red_paint 70 90) as [A B];
    [crunch | crunch | crunch | crunch | crunch |].
  split; [exact A | rewrite B; reflexivity].
Defined.
